(** * PDF-MultiTool: the notification / ZEPB matching-and-merge pipeline

    A shallow embedding of [src/main/services/merge-service.ts],
    [src/main/services/fs-utils.ts], [src/main/services/pdf-service.ts],
    [src/main/ipc/merge.ts] and [src/main/ipc/compress.ts], together with the
    properties of the code extractor, the canonicalizer, the dictionary
    builder, the pairing step and the two cancellable loops. *)

From Stdlib Require Import String Ascii DecimalString.
From Stdlib Require Import List NArith ZArith Bool Arith Lia.
Import ListNotations.

Set Implicit Arguments.
Set Warnings "-register-all".

(** ** JavaScript strings

    A JavaScript string is a sequence of UTF-16 code units.  Literals of the
    source are written as Rocq strings (UTF-8 bytes) and decoded by [js]. *)

Module JsString.

Definition char := N.
Definition jsstring := list char.

Definition cont (b : N) : N := N.modulo b 64.

(** UTF-8 bytes to UTF-16 code units (a code point above U+FFFF becomes a
    surrogate pair). *)
Fixpoint utf8_decode (bs : list N) : jsstring :=
  match bs with
  | [] => []
  | b :: r1 =>
    if N.ltb b 128 then b :: utf8_decode r1
    else if N.ltb b 224 then
      match r1 with
      | b1 :: r2 => (N.modulo b 32 * 64 + cont b1)%N :: utf8_decode r2
      | [] => [b]
      end
    else if N.ltb b 240 then
      match r1 with
      | b1 :: b2 :: r3 =>
        (N.modulo b 16 * 4096 + cont b1 * 64 + cont b2)%N :: utf8_decode r3
      | _ => [b]
      end
    else
      match r1 with
      | b1 :: b2 :: b3 :: r4 =>
        let cp := (N.modulo b 8 * 262144 + cont b1 * 4096 + cont b2 * 64 + cont b3)%N in
        let v := (cp - 65536)%N in
        (55296 + N.div v 1024)%N :: (56320 + N.modulo v 1024)%N :: utf8_decode r4
      | _ => [b]
      end
  end.

Definition js (s : string) : jsstring :=
  utf8_decode (map N_of_ascii (list_ascii_of_string s)).

Definition in_range (lo hi c : N) : bool := N.leb lo c && N.leb c hi.

(** *** Case conversion

    [String.prototype.toUpperCase] and [toLowerCase] work on the code points
    of the string with the case mappings of the Unicode Character Database
    (here of Unicode 14.0): the full mappings of SpecialCasing.txt that hold
    in every language and every context, the simple mappings of
    UnicodeData.txt for the other code points, and for the lower case of
    the capital sigma the Final_Sigma condition. *)

Local Open Scope N_scope.

Definition is_lead (c : char) : bool := in_range 0xD800 0xDBFF c.
Definition is_trail (c : char) : bool := in_range 0xDC00 0xDFFF c.

(** The code points of a string: a lead surrogate and the trail surrogate
    after it are one code point, any other code unit is one by itself. *)
Fixpoint code_points (s : jsstring) : list N :=
  match s with
  | [] => []
  | c :: t =>
    match t with
    | d :: r =>
      if is_lead c && is_trail d
      then (0x10000 + (c - 0xD800) * 0x400 + (d - 0xDC00)) :: code_points r
      else c :: code_points t
    | [] => [c]
    end
  end.

Definition code_units (cp : N) : jsstring :=
  if N.ltb cp 0x10000 then [cp]
  else [0xD800 + (cp - 0x10000) / 0x400; 0xDC00 + (cp - 0x10000) mod 0x400].

(** A run [(first, last, stride, image)] of a simple case mapping: the code
    points [first], [first + stride], ..., [last] are mapped to [image],
    [image + stride], ... *)
Definition Run : Type := N * N * N * N.

Definition in_run (cp : N) (r : Run) : bool :=
  let '(lo, hi, stride, _) := r in
  N.leb lo cp && N.leb cp hi && N.eqb ((cp - lo) mod stride) 0.

Definition simple_map (runs : list Run) (cp : N) : N :=
  match find (in_run cp) runs with
  | Some (lo, _, _, image) => image + (cp - lo)
  | None => cp
  end.

Definition full_map (special : list (N * list N)) (runs : list Run) (cp : N)
    : list N :=
  match find (fun e => N.eqb (fst e) cp) special with
  | Some (_, to) => to
  | None => [simple_map runs cp]
  end.

Definition in_set (set : list (N * N)) (cp : N) : bool :=
  existsb (fun r => in_range (fst r) (snd r) cp) set.

(** Uppercase_Mapping, code points with one code point as upper case. *)
Definition UPPER_RUNS : list Run := [
  (0x61, 0x7A, 1, 0x41); (0xB5, 0xB5, 1, 0x39C); (0xE0, 0xF6, 1, 0xC0);
  (0xF8, 0xFE, 1, 0xD8); (0xFF, 0xFF, 1, 0x178); (0x101, 0x12F, 2, 0x100);
  (0x131, 0x131, 1, 0x49); (0x133, 0x137, 2, 0x132); (0x13A, 0x148, 2, 0x139);
  (0x14B, 0x177, 2, 0x14A); (0x17A, 0x17E, 2, 0x179); (0x17F, 0x17F, 1, 0x53);
  (0x180, 0x180, 1, 0x243); (0x183, 0x185, 2, 0x182); (0x188, 0x188, 1, 0x187);
  (0x18C, 0x18C, 1, 0x18B); (0x192, 0x192, 1, 0x191); (0x195, 0x195, 1, 0x1F6);
  (0x199, 0x199, 1, 0x198); (0x19A, 0x19A, 1, 0x23D); (0x19E, 0x19E, 1, 0x220);
  (0x1A1, 0x1A5, 2, 0x1A0); (0x1A8, 0x1A8, 1, 0x1A7); (0x1AD, 0x1AD, 1, 0x1AC);
  (0x1B0, 0x1B0, 1, 0x1AF); (0x1B4, 0x1B6, 2, 0x1B3); (0x1B9, 0x1B9, 1, 0x1B8);
  (0x1BD, 0x1BD, 1, 0x1BC); (0x1BF, 0x1BF, 1, 0x1F7); (0x1C5, 0x1C5, 1, 0x1C4);
  (0x1C6, 0x1C6, 1, 0x1C4); (0x1C8, 0x1C8, 1, 0x1C7); (0x1C9, 0x1C9, 1, 0x1C7);
  (0x1CB, 0x1CB, 1, 0x1CA); (0x1CC, 0x1CC, 1, 0x1CA); (0x1CE, 0x1DC, 2, 0x1CD);
  (0x1DD, 0x1DD, 1, 0x18E); (0x1DF, 0x1EF, 2, 0x1DE); (0x1F2, 0x1F2, 1, 0x1F1);
  (0x1F3, 0x1F3, 1, 0x1F1); (0x1F5, 0x1F5, 1, 0x1F4); (0x1F9, 0x21F, 2, 0x1F8);
  (0x223, 0x233, 2, 0x222); (0x23C, 0x23C, 1, 0x23B); (0x23F, 0x240, 1, 0x2C7E);
  (0x242, 0x242, 1, 0x241); (0x247, 0x24F, 2, 0x246); (0x250, 0x250, 1, 0x2C6F);
  (0x251, 0x251, 1, 0x2C6D); (0x252, 0x252, 1, 0x2C70); (0x253, 0x253, 1, 0x181);
  (0x254, 0x254, 1, 0x186); (0x256, 0x257, 1, 0x189); (0x259, 0x259, 1, 0x18F);
  (0x25B, 0x25B, 1, 0x190); (0x25C, 0x25C, 1, 0xA7AB); (0x260, 0x260, 1, 0x193);
  (0x261, 0x261, 1, 0xA7AC); (0x263, 0x263, 1, 0x194); (0x265, 0x265, 1, 0xA78D);
  (0x266, 0x266, 1, 0xA7AA); (0x268, 0x268, 1, 0x197); (0x269, 0x269, 1, 0x196);
  (0x26A, 0x26A, 1, 0xA7AE); (0x26B, 0x26B, 1, 0x2C62); (0x26C, 0x26C, 1, 0xA7AD);
  (0x26F, 0x26F, 1, 0x19C); (0x271, 0x271, 1, 0x2C6E); (0x272, 0x272, 1, 0x19D);
  (0x275, 0x275, 1, 0x19F); (0x27D, 0x27D, 1, 0x2C64); (0x280, 0x280, 1, 0x1A6);
  (0x282, 0x282, 1, 0xA7C5); (0x283, 0x283, 1, 0x1A9); (0x287, 0x287, 1, 0xA7B1);
  (0x288, 0x288, 1, 0x1AE); (0x289, 0x289, 1, 0x244); (0x28A, 0x28B, 1, 0x1B1);
  (0x28C, 0x28C, 1, 0x245); (0x292, 0x292, 1, 0x1B7); (0x29D, 0x29D, 1, 0xA7B2);
  (0x29E, 0x29E, 1, 0xA7B0); (0x345, 0x345, 1, 0x399); (0x371, 0x373, 2, 0x370);
  (0x377, 0x377, 1, 0x376); (0x37B, 0x37D, 1, 0x3FD); (0x3AC, 0x3AC, 1, 0x386);
  (0x3AD, 0x3AF, 1, 0x388); (0x3B1, 0x3C1, 1, 0x391); (0x3C2, 0x3C2, 1, 0x3A3);
  (0x3C3, 0x3CB, 1, 0x3A3); (0x3CC, 0x3CC, 1, 0x38C); (0x3CD, 0x3CE, 1, 0x38E);
  (0x3D0, 0x3D0, 1, 0x392); (0x3D1, 0x3D1, 1, 0x398); (0x3D5, 0x3D5, 1, 0x3A6);
  (0x3D6, 0x3D6, 1, 0x3A0); (0x3D7, 0x3D7, 1, 0x3CF); (0x3D9, 0x3EF, 2, 0x3D8);
  (0x3F0, 0x3F0, 1, 0x39A); (0x3F1, 0x3F1, 1, 0x3A1); (0x3F2, 0x3F2, 1, 0x3F9);
  (0x3F3, 0x3F3, 1, 0x37F); (0x3F5, 0x3F5, 1, 0x395); (0x3F8, 0x3F8, 1, 0x3F7);
  (0x3FB, 0x3FB, 1, 0x3FA); (0x430, 0x44F, 1, 0x410); (0x450, 0x45F, 1, 0x400);
  (0x461, 0x481, 2, 0x460); (0x48B, 0x4BF, 2, 0x48A); (0x4C2, 0x4CE, 2, 0x4C1);
  (0x4CF, 0x4CF, 1, 0x4C0); (0x4D1, 0x52F, 2, 0x4D0); (0x561, 0x586, 1, 0x531);
  (0x10D0, 0x10FA, 1, 0x1C90); (0x10FD, 0x10FF, 1, 0x1CBD); (0x13F8, 0x13FD, 1, 0x13F0);
  (0x1C80, 0x1C80, 1, 0x412); (0x1C81, 0x1C81, 1, 0x414); (0x1C82, 0x1C82, 1, 0x41E);
  (0x1C83, 0x1C84, 1, 0x421); (0x1C85, 0x1C85, 1, 0x422); (0x1C86, 0x1C86, 1, 0x42A);
  (0x1C87, 0x1C87, 1, 0x462); (0x1C88, 0x1C88, 1, 0xA64A); (0x1D79, 0x1D79, 1, 0xA77D);
  (0x1D7D, 0x1D7D, 1, 0x2C63); (0x1D8E, 0x1D8E, 1, 0xA7C6); (0x1E01, 0x1E95, 2, 0x1E00);
  (0x1E9B, 0x1E9B, 1, 0x1E60); (0x1EA1, 0x1EFF, 2, 0x1EA0); (0x1F00, 0x1F07, 1, 0x1F08);
  (0x1F10, 0x1F15, 1, 0x1F18); (0x1F20, 0x1F27, 1, 0x1F28); (0x1F30, 0x1F37, 1, 0x1F38);
  (0x1F40, 0x1F45, 1, 0x1F48); (0x1F51, 0x1F57, 2, 0x1F59); (0x1F60, 0x1F67, 1, 0x1F68);
  (0x1F70, 0x1F71, 1, 0x1FBA); (0x1F72, 0x1F75, 1, 0x1FC8); (0x1F76, 0x1F77, 1, 0x1FDA);
  (0x1F78, 0x1F79, 1, 0x1FF8); (0x1F7A, 0x1F7B, 1, 0x1FEA); (0x1F7C, 0x1F7D, 1, 0x1FFA);
  (0x1FB0, 0x1FB1, 1, 0x1FB8); (0x1FBE, 0x1FBE, 1, 0x399); (0x1FD0, 0x1FD1, 1, 0x1FD8);
  (0x1FE0, 0x1FE1, 1, 0x1FE8); (0x1FE5, 0x1FE5, 1, 0x1FEC); (0x214E, 0x214E, 1, 0x2132);
  (0x2170, 0x217F, 1, 0x2160); (0x2184, 0x2184, 1, 0x2183); (0x24D0, 0x24E9, 1, 0x24B6);
  (0x2C30, 0x2C5F, 1, 0x2C00); (0x2C61, 0x2C61, 1, 0x2C60); (0x2C65, 0x2C65, 1, 0x23A);
  (0x2C66, 0x2C66, 1, 0x23E); (0x2C68, 0x2C6C, 2, 0x2C67); (0x2C73, 0x2C73, 1, 0x2C72);
  (0x2C76, 0x2C76, 1, 0x2C75); (0x2C81, 0x2CE3, 2, 0x2C80); (0x2CEC, 0x2CEE, 2, 0x2CEB);
  (0x2CF3, 0x2CF3, 1, 0x2CF2); (0x2D00, 0x2D25, 1, 0x10A0); (0x2D27, 0x2D27, 1, 0x10C7);
  (0x2D2D, 0x2D2D, 1, 0x10CD); (0xA641, 0xA66D, 2, 0xA640); (0xA681, 0xA69B, 2, 0xA680);
  (0xA723, 0xA72F, 2, 0xA722); (0xA733, 0xA76F, 2, 0xA732); (0xA77A, 0xA77C, 2, 0xA779);
  (0xA77F, 0xA787, 2, 0xA77E); (0xA78C, 0xA78C, 1, 0xA78B); (0xA791, 0xA793, 2, 0xA790);
  (0xA794, 0xA794, 1, 0xA7C4); (0xA797, 0xA7A9, 2, 0xA796); (0xA7B5, 0xA7C3, 2, 0xA7B4);
  (0xA7C8, 0xA7CA, 2, 0xA7C7); (0xA7D1, 0xA7D1, 1, 0xA7D0); (0xA7D7, 0xA7D9, 2, 0xA7D6);
  (0xA7F6, 0xA7F6, 1, 0xA7F5); (0xAB53, 0xAB53, 1, 0xA7B3); (0xAB70, 0xABBF, 1, 0x13A0);
  (0xFF41, 0xFF5A, 1, 0xFF21); (0x10428, 0x1044F, 1, 0x10400); (0x104D8, 0x104FB, 1, 0x104B0);
  (0x10597, 0x105A1, 1, 0x10570); (0x105A3, 0x105B1, 1, 0x1057C); (0x105B3, 0x105B9, 1, 0x1058C);
  (0x105BB, 0x105BC, 1, 0x10594); (0x10CC0, 0x10CF2, 1, 0x10C80); (0x118C0, 0x118DF, 1, 0x118A0);
  (0x16E60, 0x16E7F, 1, 0x16E40); (0x1E922, 0x1E943, 1, 0x1E900)
].

(** Code points whose upper case is more than one code point. *)
Definition UPPER_SPECIAL : list (N * list N) := [
  (0xDF, [0x53; 0x53]); (0x149, [0x2BC; 0x4E]); (0x1F0, [0x4A; 0x30C]);
  (0x390, [0x399; 0x308; 0x301]); (0x3B0, [0x3A5; 0x308; 0x301]); (0x587, [0x535; 0x552]);
  (0x1E96, [0x48; 0x331]); (0x1E97, [0x54; 0x308]); (0x1E98, [0x57; 0x30A]);
  (0x1E99, [0x59; 0x30A]); (0x1E9A, [0x41; 0x2BE]); (0x1F50, [0x3A5; 0x313]);
  (0x1F52, [0x3A5; 0x313; 0x300]); (0x1F54, [0x3A5; 0x313; 0x301]); (0x1F56, [0x3A5; 0x313; 0x342]);
  (0x1F80, [0x1F08; 0x399]); (0x1F81, [0x1F09; 0x399]); (0x1F82, [0x1F0A; 0x399]);
  (0x1F83, [0x1F0B; 0x399]); (0x1F84, [0x1F0C; 0x399]); (0x1F85, [0x1F0D; 0x399]);
  (0x1F86, [0x1F0E; 0x399]); (0x1F87, [0x1F0F; 0x399]); (0x1F88, [0x1F08; 0x399]);
  (0x1F89, [0x1F09; 0x399]); (0x1F8A, [0x1F0A; 0x399]); (0x1F8B, [0x1F0B; 0x399]);
  (0x1F8C, [0x1F0C; 0x399]); (0x1F8D, [0x1F0D; 0x399]); (0x1F8E, [0x1F0E; 0x399]);
  (0x1F8F, [0x1F0F; 0x399]); (0x1F90, [0x1F28; 0x399]); (0x1F91, [0x1F29; 0x399]);
  (0x1F92, [0x1F2A; 0x399]); (0x1F93, [0x1F2B; 0x399]); (0x1F94, [0x1F2C; 0x399]);
  (0x1F95, [0x1F2D; 0x399]); (0x1F96, [0x1F2E; 0x399]); (0x1F97, [0x1F2F; 0x399]);
  (0x1F98, [0x1F28; 0x399]); (0x1F99, [0x1F29; 0x399]); (0x1F9A, [0x1F2A; 0x399]);
  (0x1F9B, [0x1F2B; 0x399]); (0x1F9C, [0x1F2C; 0x399]); (0x1F9D, [0x1F2D; 0x399]);
  (0x1F9E, [0x1F2E; 0x399]); (0x1F9F, [0x1F2F; 0x399]); (0x1FA0, [0x1F68; 0x399]);
  (0x1FA1, [0x1F69; 0x399]); (0x1FA2, [0x1F6A; 0x399]); (0x1FA3, [0x1F6B; 0x399]);
  (0x1FA4, [0x1F6C; 0x399]); (0x1FA5, [0x1F6D; 0x399]); (0x1FA6, [0x1F6E; 0x399]);
  (0x1FA7, [0x1F6F; 0x399]); (0x1FA8, [0x1F68; 0x399]); (0x1FA9, [0x1F69; 0x399]);
  (0x1FAA, [0x1F6A; 0x399]); (0x1FAB, [0x1F6B; 0x399]); (0x1FAC, [0x1F6C; 0x399]);
  (0x1FAD, [0x1F6D; 0x399]); (0x1FAE, [0x1F6E; 0x399]); (0x1FAF, [0x1F6F; 0x399]);
  (0x1FB2, [0x1FBA; 0x399]); (0x1FB3, [0x391; 0x399]); (0x1FB4, [0x386; 0x399]);
  (0x1FB6, [0x391; 0x342]); (0x1FB7, [0x391; 0x342; 0x399]); (0x1FBC, [0x391; 0x399]);
  (0x1FC2, [0x1FCA; 0x399]); (0x1FC3, [0x397; 0x399]); (0x1FC4, [0x389; 0x399]);
  (0x1FC6, [0x397; 0x342]); (0x1FC7, [0x397; 0x342; 0x399]); (0x1FCC, [0x397; 0x399]);
  (0x1FD2, [0x399; 0x308; 0x300]); (0x1FD3, [0x399; 0x308; 0x301]); (0x1FD6, [0x399; 0x342]);
  (0x1FD7, [0x399; 0x308; 0x342]); (0x1FE2, [0x3A5; 0x308; 0x300]); (0x1FE3, [0x3A5; 0x308; 0x301]);
  (0x1FE4, [0x3A1; 0x313]); (0x1FE6, [0x3A5; 0x342]); (0x1FE7, [0x3A5; 0x308; 0x342]);
  (0x1FF2, [0x1FFA; 0x399]); (0x1FF3, [0x3A9; 0x399]); (0x1FF4, [0x38F; 0x399]);
  (0x1FF6, [0x3A9; 0x342]); (0x1FF7, [0x3A9; 0x342; 0x399]); (0x1FFC, [0x3A9; 0x399]);
  (0xFB00, [0x46; 0x46]); (0xFB01, [0x46; 0x49]); (0xFB02, [0x46; 0x4C]);
  (0xFB03, [0x46; 0x46; 0x49]); (0xFB04, [0x46; 0x46; 0x4C]); (0xFB05, [0x53; 0x54]);
  (0xFB06, [0x53; 0x54]); (0xFB13, [0x544; 0x546]); (0xFB14, [0x544; 0x535]);
  (0xFB15, [0x544; 0x53B]); (0xFB16, [0x54E; 0x546]); (0xFB17, [0x544; 0x53D])
].

(** Lowercase_Mapping. *)
Definition LOWER_RUNS : list Run := [
  (0x41, 0x5A, 1, 0x61); (0xC0, 0xD6, 1, 0xE0); (0xD8, 0xDE, 1, 0xF8);
  (0x100, 0x12E, 2, 0x101); (0x132, 0x136, 2, 0x133); (0x139, 0x147, 2, 0x13A);
  (0x14A, 0x176, 2, 0x14B); (0x178, 0x178, 1, 0xFF); (0x179, 0x17D, 2, 0x17A);
  (0x181, 0x181, 1, 0x253); (0x182, 0x184, 2, 0x183); (0x186, 0x186, 1, 0x254);
  (0x187, 0x187, 1, 0x188); (0x189, 0x18A, 1, 0x256); (0x18B, 0x18B, 1, 0x18C);
  (0x18E, 0x18E, 1, 0x1DD); (0x18F, 0x18F, 1, 0x259); (0x190, 0x190, 1, 0x25B);
  (0x191, 0x191, 1, 0x192); (0x193, 0x193, 1, 0x260); (0x194, 0x194, 1, 0x263);
  (0x196, 0x196, 1, 0x269); (0x197, 0x197, 1, 0x268); (0x198, 0x198, 1, 0x199);
  (0x19C, 0x19C, 1, 0x26F); (0x19D, 0x19D, 1, 0x272); (0x19F, 0x19F, 1, 0x275);
  (0x1A0, 0x1A4, 2, 0x1A1); (0x1A6, 0x1A6, 1, 0x280); (0x1A7, 0x1A7, 1, 0x1A8);
  (0x1A9, 0x1A9, 1, 0x283); (0x1AC, 0x1AC, 1, 0x1AD); (0x1AE, 0x1AE, 1, 0x288);
  (0x1AF, 0x1AF, 1, 0x1B0); (0x1B1, 0x1B2, 1, 0x28A); (0x1B3, 0x1B5, 2, 0x1B4);
  (0x1B7, 0x1B7, 1, 0x292); (0x1B8, 0x1B8, 1, 0x1B9); (0x1BC, 0x1BC, 1, 0x1BD);
  (0x1C4, 0x1C4, 1, 0x1C6); (0x1C5, 0x1C5, 1, 0x1C6); (0x1C7, 0x1C7, 1, 0x1C9);
  (0x1C8, 0x1C8, 1, 0x1C9); (0x1CA, 0x1CA, 1, 0x1CC); (0x1CB, 0x1DB, 2, 0x1CC);
  (0x1DE, 0x1EE, 2, 0x1DF); (0x1F1, 0x1F1, 1, 0x1F3); (0x1F2, 0x1F4, 2, 0x1F3);
  (0x1F6, 0x1F6, 1, 0x195); (0x1F7, 0x1F7, 1, 0x1BF); (0x1F8, 0x21E, 2, 0x1F9);
  (0x220, 0x220, 1, 0x19E); (0x222, 0x232, 2, 0x223); (0x23A, 0x23A, 1, 0x2C65);
  (0x23B, 0x23B, 1, 0x23C); (0x23D, 0x23D, 1, 0x19A); (0x23E, 0x23E, 1, 0x2C66);
  (0x241, 0x241, 1, 0x242); (0x243, 0x243, 1, 0x180); (0x244, 0x244, 1, 0x289);
  (0x245, 0x245, 1, 0x28C); (0x246, 0x24E, 2, 0x247); (0x370, 0x372, 2, 0x371);
  (0x376, 0x376, 1, 0x377); (0x37F, 0x37F, 1, 0x3F3); (0x386, 0x386, 1, 0x3AC);
  (0x388, 0x38A, 1, 0x3AD); (0x38C, 0x38C, 1, 0x3CC); (0x38E, 0x38F, 1, 0x3CD);
  (0x391, 0x3A1, 1, 0x3B1); (0x3A3, 0x3AB, 1, 0x3C3); (0x3CF, 0x3CF, 1, 0x3D7);
  (0x3D8, 0x3EE, 2, 0x3D9); (0x3F4, 0x3F4, 1, 0x3B8); (0x3F7, 0x3F7, 1, 0x3F8);
  (0x3F9, 0x3F9, 1, 0x3F2); (0x3FA, 0x3FA, 1, 0x3FB); (0x3FD, 0x3FF, 1, 0x37B);
  (0x400, 0x40F, 1, 0x450); (0x410, 0x42F, 1, 0x430); (0x460, 0x480, 2, 0x461);
  (0x48A, 0x4BE, 2, 0x48B); (0x4C0, 0x4C0, 1, 0x4CF); (0x4C1, 0x4CD, 2, 0x4C2);
  (0x4D0, 0x52E, 2, 0x4D1); (0x531, 0x556, 1, 0x561); (0x10A0, 0x10C5, 1, 0x2D00);
  (0x10C7, 0x10C7, 1, 0x2D27); (0x10CD, 0x10CD, 1, 0x2D2D); (0x13A0, 0x13EF, 1, 0xAB70);
  (0x13F0, 0x13F5, 1, 0x13F8); (0x1C90, 0x1CBA, 1, 0x10D0); (0x1CBD, 0x1CBF, 1, 0x10FD);
  (0x1E00, 0x1E94, 2, 0x1E01); (0x1E9E, 0x1E9E, 1, 0xDF); (0x1EA0, 0x1EFE, 2, 0x1EA1);
  (0x1F08, 0x1F0F, 1, 0x1F00); (0x1F18, 0x1F1D, 1, 0x1F10); (0x1F28, 0x1F2F, 1, 0x1F20);
  (0x1F38, 0x1F3F, 1, 0x1F30); (0x1F48, 0x1F4D, 1, 0x1F40); (0x1F59, 0x1F5F, 2, 0x1F51);
  (0x1F68, 0x1F6F, 1, 0x1F60); (0x1F88, 0x1F8F, 1, 0x1F80); (0x1F98, 0x1F9F, 1, 0x1F90);
  (0x1FA8, 0x1FAF, 1, 0x1FA0); (0x1FB8, 0x1FB9, 1, 0x1FB0); (0x1FBA, 0x1FBB, 1, 0x1F70);
  (0x1FBC, 0x1FBC, 1, 0x1FB3); (0x1FC8, 0x1FCB, 1, 0x1F72); (0x1FCC, 0x1FCC, 1, 0x1FC3);
  (0x1FD8, 0x1FD9, 1, 0x1FD0); (0x1FDA, 0x1FDB, 1, 0x1F76); (0x1FE8, 0x1FE9, 1, 0x1FE0);
  (0x1FEA, 0x1FEB, 1, 0x1F7A); (0x1FEC, 0x1FEC, 1, 0x1FE5); (0x1FF8, 0x1FF9, 1, 0x1F78);
  (0x1FFA, 0x1FFB, 1, 0x1F7C); (0x1FFC, 0x1FFC, 1, 0x1FF3); (0x2126, 0x2126, 1, 0x3C9);
  (0x212A, 0x212A, 1, 0x6B); (0x212B, 0x212B, 1, 0xE5); (0x2132, 0x2132, 1, 0x214E);
  (0x2160, 0x216F, 1, 0x2170); (0x2183, 0x2183, 1, 0x2184); (0x24B6, 0x24CF, 1, 0x24D0);
  (0x2C00, 0x2C2F, 1, 0x2C30); (0x2C60, 0x2C60, 1, 0x2C61); (0x2C62, 0x2C62, 1, 0x26B);
  (0x2C63, 0x2C63, 1, 0x1D7D); (0x2C64, 0x2C64, 1, 0x27D); (0x2C67, 0x2C6B, 2, 0x2C68);
  (0x2C6D, 0x2C6D, 1, 0x251); (0x2C6E, 0x2C6E, 1, 0x271); (0x2C6F, 0x2C6F, 1, 0x250);
  (0x2C70, 0x2C70, 1, 0x252); (0x2C72, 0x2C72, 1, 0x2C73); (0x2C75, 0x2C75, 1, 0x2C76);
  (0x2C7E, 0x2C7F, 1, 0x23F); (0x2C80, 0x2CE2, 2, 0x2C81); (0x2CEB, 0x2CED, 2, 0x2CEC);
  (0x2CF2, 0x2CF2, 1, 0x2CF3); (0xA640, 0xA66C, 2, 0xA641); (0xA680, 0xA69A, 2, 0xA681);
  (0xA722, 0xA72E, 2, 0xA723); (0xA732, 0xA76E, 2, 0xA733); (0xA779, 0xA77B, 2, 0xA77A);
  (0xA77D, 0xA77D, 1, 0x1D79); (0xA77E, 0xA786, 2, 0xA77F); (0xA78B, 0xA78B, 1, 0xA78C);
  (0xA78D, 0xA78D, 1, 0x265); (0xA790, 0xA792, 2, 0xA791); (0xA796, 0xA7A8, 2, 0xA797);
  (0xA7AA, 0xA7AA, 1, 0x266); (0xA7AB, 0xA7AB, 1, 0x25C); (0xA7AC, 0xA7AC, 1, 0x261);
  (0xA7AD, 0xA7AD, 1, 0x26C); (0xA7AE, 0xA7AE, 1, 0x26A); (0xA7B0, 0xA7B0, 1, 0x29E);
  (0xA7B1, 0xA7B1, 1, 0x287); (0xA7B2, 0xA7B2, 1, 0x29D); (0xA7B3, 0xA7B3, 1, 0xAB53);
  (0xA7B4, 0xA7C2, 2, 0xA7B5); (0xA7C4, 0xA7C4, 1, 0xA794); (0xA7C5, 0xA7C5, 1, 0x282);
  (0xA7C6, 0xA7C6, 1, 0x1D8E); (0xA7C7, 0xA7C9, 2, 0xA7C8); (0xA7D0, 0xA7D0, 1, 0xA7D1);
  (0xA7D6, 0xA7D8, 2, 0xA7D7); (0xA7F5, 0xA7F5, 1, 0xA7F6); (0xFF21, 0xFF3A, 1, 0xFF41);
  (0x10400, 0x10427, 1, 0x10428); (0x104B0, 0x104D3, 1, 0x104D8); (0x10570, 0x1057A, 1, 0x10597);
  (0x1057C, 0x1058A, 1, 0x105A3); (0x1058C, 0x10592, 1, 0x105B3); (0x10594, 0x10595, 1, 0x105BB);
  (0x10C80, 0x10CB2, 1, 0x10CC0); (0x118A0, 0x118BF, 1, 0x118C0); (0x16E40, 0x16E5F, 1, 0x16E60);
  (0x1E900, 0x1E921, 1, 0x1E922)
].

Definition LOWER_SPECIAL : list (N * list N) := [
  (0x130, [0x69; 0x307])
].

(** Case_Ignorable. *)
Definition CASE_IGNORABLE : list (N * N) := [
  (0x27, 0x27); (0x2E, 0x2E); (0x3A, 0x3A); (0x5E, 0x5E); (0x60, 0x60);
  (0xA8, 0xA8); (0xAD, 0xAD); (0xAF, 0xAF); (0xB4, 0xB4); (0xB7, 0xB8);
  (0x2B0, 0x36F); (0x374, 0x375); (0x37A, 0x37A); (0x384, 0x385); (0x387, 0x387);
  (0x483, 0x489); (0x559, 0x559); (0x55F, 0x55F); (0x591, 0x5BD); (0x5BF, 0x5BF);
  (0x5C1, 0x5C2); (0x5C4, 0x5C5); (0x5C7, 0x5C7); (0x5F4, 0x5F4); (0x600, 0x605);
  (0x610, 0x61A); (0x61C, 0x61C); (0x640, 0x640); (0x64B, 0x65F); (0x670, 0x670);
  (0x6D6, 0x6DD); (0x6DF, 0x6E8); (0x6EA, 0x6ED); (0x70F, 0x70F); (0x711, 0x711);
  (0x730, 0x74A); (0x7A6, 0x7B0); (0x7EB, 0x7F5); (0x7FA, 0x7FA); (0x7FD, 0x7FD);
  (0x816, 0x82D); (0x859, 0x85B); (0x888, 0x888); (0x890, 0x891); (0x898, 0x89F);
  (0x8C9, 0x902); (0x93A, 0x93A); (0x93C, 0x93C); (0x941, 0x948); (0x94D, 0x94D);
  (0x951, 0x957); (0x962, 0x963); (0x971, 0x971); (0x981, 0x981); (0x9BC, 0x9BC);
  (0x9C1, 0x9C4); (0x9CD, 0x9CD); (0x9E2, 0x9E3); (0x9FE, 0x9FE); (0xA01, 0xA02);
  (0xA3C, 0xA3C); (0xA41, 0xA42); (0xA47, 0xA48); (0xA4B, 0xA4D); (0xA51, 0xA51);
  (0xA70, 0xA71); (0xA75, 0xA75); (0xA81, 0xA82); (0xABC, 0xABC); (0xAC1, 0xAC5);
  (0xAC7, 0xAC8); (0xACD, 0xACD); (0xAE2, 0xAE3); (0xAFA, 0xAFF); (0xB01, 0xB01);
  (0xB3C, 0xB3C); (0xB3F, 0xB3F); (0xB41, 0xB44); (0xB4D, 0xB4D); (0xB55, 0xB56);
  (0xB62, 0xB63); (0xB82, 0xB82); (0xBC0, 0xBC0); (0xBCD, 0xBCD); (0xC00, 0xC00);
  (0xC04, 0xC04); (0xC3C, 0xC3C); (0xC3E, 0xC40); (0xC46, 0xC48); (0xC4A, 0xC4D);
  (0xC55, 0xC56); (0xC62, 0xC63); (0xC81, 0xC81); (0xCBC, 0xCBC); (0xCBF, 0xCBF);
  (0xCC6, 0xCC6); (0xCCC, 0xCCD); (0xCE2, 0xCE3); (0xD00, 0xD01); (0xD3B, 0xD3C);
  (0xD41, 0xD44); (0xD4D, 0xD4D); (0xD62, 0xD63); (0xD81, 0xD81); (0xDCA, 0xDCA);
  (0xDD2, 0xDD4); (0xDD6, 0xDD6); (0xE31, 0xE31); (0xE34, 0xE3A); (0xE46, 0xE4E);
  (0xEB1, 0xEB1); (0xEB4, 0xEBC); (0xEC6, 0xEC6); (0xEC8, 0xECD); (0xF18, 0xF19);
  (0xF35, 0xF35); (0xF37, 0xF37); (0xF39, 0xF39); (0xF71, 0xF7E); (0xF80, 0xF84);
  (0xF86, 0xF87); (0xF8D, 0xF97); (0xF99, 0xFBC); (0xFC6, 0xFC6); (0x102D, 0x1030);
  (0x1032, 0x1037); (0x1039, 0x103A); (0x103D, 0x103E); (0x1058, 0x1059); (0x105E, 0x1060);
  (0x1071, 0x1074); (0x1082, 0x1082); (0x1085, 0x1086); (0x108D, 0x108D); (0x109D, 0x109D);
  (0x10FC, 0x10FC); (0x135D, 0x135F); (0x1712, 0x1714); (0x1732, 0x1733); (0x1752, 0x1753);
  (0x1772, 0x1773); (0x17B4, 0x17B5); (0x17B7, 0x17BD); (0x17C6, 0x17C6); (0x17C9, 0x17D3);
  (0x17D7, 0x17D7); (0x17DD, 0x17DD); (0x180B, 0x180F); (0x1843, 0x1843); (0x1885, 0x1886);
  (0x18A9, 0x18A9); (0x1920, 0x1922); (0x1927, 0x1928); (0x1932, 0x1932); (0x1939, 0x193B);
  (0x1A17, 0x1A18); (0x1A1B, 0x1A1B); (0x1A56, 0x1A56); (0x1A58, 0x1A5E); (0x1A60, 0x1A60);
  (0x1A62, 0x1A62); (0x1A65, 0x1A6C); (0x1A73, 0x1A7C); (0x1A7F, 0x1A7F); (0x1AA7, 0x1AA7);
  (0x1AB0, 0x1ACE); (0x1B00, 0x1B03); (0x1B34, 0x1B34); (0x1B36, 0x1B3A); (0x1B3C, 0x1B3C);
  (0x1B42, 0x1B42); (0x1B6B, 0x1B73); (0x1B80, 0x1B81); (0x1BA2, 0x1BA5); (0x1BA8, 0x1BA9);
  (0x1BAB, 0x1BAD); (0x1BE6, 0x1BE6); (0x1BE8, 0x1BE9); (0x1BED, 0x1BED); (0x1BEF, 0x1BF1);
  (0x1C2C, 0x1C33); (0x1C36, 0x1C37); (0x1C78, 0x1C7D); (0x1CD0, 0x1CD2); (0x1CD4, 0x1CE0);
  (0x1CE2, 0x1CE8); (0x1CED, 0x1CED); (0x1CF4, 0x1CF4); (0x1CF8, 0x1CF9); (0x1D2C, 0x1D6A);
  (0x1D78, 0x1D78); (0x1D9B, 0x1DFF); (0x1FBD, 0x1FBD); (0x1FBF, 0x1FC1); (0x1FCD, 0x1FCF);
  (0x1FDD, 0x1FDF); (0x1FED, 0x1FEF); (0x1FFD, 0x1FFE); (0x200B, 0x200F); (0x2018, 0x2019);
  (0x2024, 0x2024); (0x2027, 0x2027); (0x202A, 0x202E); (0x2060, 0x2064); (0x2066, 0x206F);
  (0x2071, 0x2071); (0x207F, 0x207F); (0x2090, 0x209C); (0x20D0, 0x20F0); (0x2C7C, 0x2C7D);
  (0x2CEF, 0x2CF1); (0x2D6F, 0x2D6F); (0x2D7F, 0x2D7F); (0x2DE0, 0x2DFF); (0x2E2F, 0x2E2F);
  (0x3005, 0x3005); (0x302A, 0x302D); (0x3031, 0x3035); (0x303B, 0x303B); (0x3099, 0x309E);
  (0x30FC, 0x30FE); (0xA015, 0xA015); (0xA4F8, 0xA4FD); (0xA60C, 0xA60C); (0xA66F, 0xA672);
  (0xA674, 0xA67D); (0xA67F, 0xA67F); (0xA69C, 0xA69F); (0xA6F0, 0xA6F1); (0xA700, 0xA721);
  (0xA770, 0xA770); (0xA788, 0xA78A); (0xA7F2, 0xA7F4); (0xA7F8, 0xA7F9); (0xA802, 0xA802);
  (0xA806, 0xA806); (0xA80B, 0xA80B); (0xA825, 0xA826); (0xA82C, 0xA82C); (0xA8C4, 0xA8C5);
  (0xA8E0, 0xA8F1); (0xA8FF, 0xA8FF); (0xA926, 0xA92D); (0xA947, 0xA951); (0xA980, 0xA982);
  (0xA9B3, 0xA9B3); (0xA9B6, 0xA9B9); (0xA9BC, 0xA9BD); (0xA9CF, 0xA9CF); (0xA9E5, 0xA9E6);
  (0xAA29, 0xAA2E); (0xAA31, 0xAA32); (0xAA35, 0xAA36); (0xAA43, 0xAA43); (0xAA4C, 0xAA4C);
  (0xAA70, 0xAA70); (0xAA7C, 0xAA7C); (0xAAB0, 0xAAB0); (0xAAB2, 0xAAB4); (0xAAB7, 0xAAB8);
  (0xAABE, 0xAABF); (0xAAC1, 0xAAC1); (0xAADD, 0xAADD); (0xAAEC, 0xAAED); (0xAAF3, 0xAAF4);
  (0xAAF6, 0xAAF6); (0xAB5B, 0xAB5F); (0xAB69, 0xAB6B); (0xABE5, 0xABE5); (0xABE8, 0xABE8);
  (0xABED, 0xABED); (0xFB1E, 0xFB1E); (0xFBB2, 0xFBC2); (0xFE00, 0xFE0F); (0xFE13, 0xFE13);
  (0xFE20, 0xFE2F); (0xFE52, 0xFE52); (0xFE55, 0xFE55); (0xFEFF, 0xFEFF); (0xFF07, 0xFF07);
  (0xFF0E, 0xFF0E); (0xFF1A, 0xFF1A); (0xFF3E, 0xFF3E); (0xFF40, 0xFF40); (0xFF70, 0xFF70);
  (0xFF9E, 0xFF9F); (0xFFE3, 0xFFE3); (0xFFF9, 0xFFFB); (0x101FD, 0x101FD); (0x102E0, 0x102E0);
  (0x10376, 0x1037A); (0x10780, 0x10785); (0x10787, 0x107B0); (0x107B2, 0x107BA); (0x10A01, 0x10A03);
  (0x10A05, 0x10A06); (0x10A0C, 0x10A0F); (0x10A38, 0x10A3A); (0x10A3F, 0x10A3F); (0x10AE5, 0x10AE6);
  (0x10D24, 0x10D27); (0x10EAB, 0x10EAC); (0x10F46, 0x10F50); (0x10F82, 0x10F85); (0x11001, 0x11001);
  (0x11038, 0x11046); (0x11070, 0x11070); (0x11073, 0x11074); (0x1107F, 0x11081); (0x110B3, 0x110B6);
  (0x110B9, 0x110BA); (0x110BD, 0x110BD); (0x110C2, 0x110C2); (0x110CD, 0x110CD); (0x11100, 0x11102);
  (0x11127, 0x1112B); (0x1112D, 0x11134); (0x11173, 0x11173); (0x11180, 0x11181); (0x111B6, 0x111BE);
  (0x111C9, 0x111CC); (0x111CF, 0x111CF); (0x1122F, 0x11231); (0x11234, 0x11234); (0x11236, 0x11237);
  (0x1123E, 0x1123E); (0x112DF, 0x112DF); (0x112E3, 0x112EA); (0x11300, 0x11301); (0x1133B, 0x1133C);
  (0x11340, 0x11340); (0x11366, 0x1136C); (0x11370, 0x11374); (0x11438, 0x1143F); (0x11442, 0x11444);
  (0x11446, 0x11446); (0x1145E, 0x1145E); (0x114B3, 0x114B8); (0x114BA, 0x114BA); (0x114BF, 0x114C0);
  (0x114C2, 0x114C3); (0x115B2, 0x115B5); (0x115BC, 0x115BD); (0x115BF, 0x115C0); (0x115DC, 0x115DD);
  (0x11633, 0x1163A); (0x1163D, 0x1163D); (0x1163F, 0x11640); (0x116AB, 0x116AB); (0x116AD, 0x116AD);
  (0x116B0, 0x116B5); (0x116B7, 0x116B7); (0x1171D, 0x1171F); (0x11722, 0x11725); (0x11727, 0x1172B);
  (0x1182F, 0x11837); (0x11839, 0x1183A); (0x1193B, 0x1193C); (0x1193E, 0x1193E); (0x11943, 0x11943);
  (0x119D4, 0x119D7); (0x119DA, 0x119DB); (0x119E0, 0x119E0); (0x11A01, 0x11A0A); (0x11A33, 0x11A38);
  (0x11A3B, 0x11A3E); (0x11A47, 0x11A47); (0x11A51, 0x11A56); (0x11A59, 0x11A5B); (0x11A8A, 0x11A96);
  (0x11A98, 0x11A99); (0x11C30, 0x11C36); (0x11C38, 0x11C3D); (0x11C3F, 0x11C3F); (0x11C92, 0x11CA7);
  (0x11CAA, 0x11CB0); (0x11CB2, 0x11CB3); (0x11CB5, 0x11CB6); (0x11D31, 0x11D36); (0x11D3A, 0x11D3A);
  (0x11D3C, 0x11D3D); (0x11D3F, 0x11D45); (0x11D47, 0x11D47); (0x11D90, 0x11D91); (0x11D95, 0x11D95);
  (0x11D97, 0x11D97); (0x11EF3, 0x11EF4); (0x13430, 0x13438); (0x16AF0, 0x16AF4); (0x16B30, 0x16B36);
  (0x16B40, 0x16B43); (0x16F4F, 0x16F4F); (0x16F8F, 0x16F9F); (0x16FE0, 0x16FE1); (0x16FE3, 0x16FE4);
  (0x1AFF0, 0x1AFF3); (0x1AFF5, 0x1AFFB); (0x1AFFD, 0x1AFFE); (0x1BC9D, 0x1BC9E); (0x1BCA0, 0x1BCA3);
  (0x1CF00, 0x1CF2D); (0x1CF30, 0x1CF46); (0x1D167, 0x1D169); (0x1D173, 0x1D182); (0x1D185, 0x1D18B);
  (0x1D1AA, 0x1D1AD); (0x1D242, 0x1D244); (0x1DA00, 0x1DA36); (0x1DA3B, 0x1DA6C); (0x1DA75, 0x1DA75);
  (0x1DA84, 0x1DA84); (0x1DA9B, 0x1DA9F); (0x1DAA1, 0x1DAAF); (0x1E000, 0x1E006); (0x1E008, 0x1E018);
  (0x1E01B, 0x1E021); (0x1E023, 0x1E024); (0x1E026, 0x1E02A); (0x1E130, 0x1E13D); (0x1E2AE, 0x1E2AE);
  (0x1E2EC, 0x1E2EF); (0x1E8D0, 0x1E8D6); (0x1E944, 0x1E94B); (0x1F3FB, 0x1F3FF); (0xE0001, 0xE0001);
  (0xE0020, 0xE007F); (0xE0100, 0xE01EF)
].

(** Cased, without the code points that are Case_Ignorable as well. *)
Definition CASED : list (N * N) := [
  (0x41, 0x5A); (0x61, 0x7A); (0xAA, 0xAA); (0xB5, 0xB5); (0xBA, 0xBA);
  (0xC0, 0xD6); (0xD8, 0xF6); (0xF8, 0x1BA); (0x1BC, 0x1BF); (0x1C4, 0x293);
  (0x295, 0x2AF); (0x370, 0x373); (0x376, 0x377); (0x37B, 0x37D); (0x37F, 0x37F);
  (0x386, 0x386); (0x388, 0x38A); (0x38C, 0x38C); (0x38E, 0x3A1); (0x3A3, 0x3F5);
  (0x3F7, 0x481); (0x48A, 0x52F); (0x531, 0x556); (0x560, 0x588); (0x10A0, 0x10C5);
  (0x10C7, 0x10C7); (0x10CD, 0x10CD); (0x10D0, 0x10FA); (0x10FD, 0x10FF); (0x13A0, 0x13F5);
  (0x13F8, 0x13FD); (0x1C80, 0x1C88); (0x1C90, 0x1CBA); (0x1CBD, 0x1CBF); (0x1D00, 0x1D2B);
  (0x1D6B, 0x1D77); (0x1D79, 0x1D9A); (0x1E00, 0x1F15); (0x1F18, 0x1F1D); (0x1F20, 0x1F45);
  (0x1F48, 0x1F4D); (0x1F50, 0x1F57); (0x1F59, 0x1F59); (0x1F5B, 0x1F5B); (0x1F5D, 0x1F5D);
  (0x1F5F, 0x1F7D); (0x1F80, 0x1FB4); (0x1FB6, 0x1FBC); (0x1FBE, 0x1FBE); (0x1FC2, 0x1FC4);
  (0x1FC6, 0x1FCC); (0x1FD0, 0x1FD3); (0x1FD6, 0x1FDB); (0x1FE0, 0x1FEC); (0x1FF2, 0x1FF4);
  (0x1FF6, 0x1FFC); (0x2102, 0x2102); (0x2107, 0x2107); (0x210A, 0x2113); (0x2115, 0x2115);
  (0x2119, 0x211D); (0x2124, 0x2124); (0x2126, 0x2126); (0x2128, 0x2128); (0x212A, 0x212D);
  (0x212F, 0x2134); (0x2139, 0x2139); (0x213C, 0x213F); (0x2145, 0x2149); (0x214E, 0x214E);
  (0x2160, 0x217F); (0x2183, 0x2184); (0x24B6, 0x24E9); (0x2C00, 0x2C7B); (0x2C7E, 0x2CE4);
  (0x2CEB, 0x2CEE); (0x2CF2, 0x2CF3); (0x2D00, 0x2D25); (0x2D27, 0x2D27); (0x2D2D, 0x2D2D);
  (0xA640, 0xA66D); (0xA680, 0xA69B); (0xA722, 0xA76F); (0xA771, 0xA787); (0xA78B, 0xA78E);
  (0xA790, 0xA7CA); (0xA7D0, 0xA7D1); (0xA7D3, 0xA7D3); (0xA7D5, 0xA7D9); (0xA7F5, 0xA7F6);
  (0xA7FA, 0xA7FA); (0xAB30, 0xAB5A); (0xAB60, 0xAB68); (0xAB70, 0xABBF); (0xFB00, 0xFB06);
  (0xFB13, 0xFB17); (0xFF21, 0xFF3A); (0xFF41, 0xFF5A); (0x10400, 0x1044F); (0x104B0, 0x104D3);
  (0x104D8, 0x104FB); (0x10570, 0x1057A); (0x1057C, 0x1058A); (0x1058C, 0x10592); (0x10594, 0x10595);
  (0x10597, 0x105A1); (0x105A3, 0x105B1); (0x105B3, 0x105B9); (0x105BB, 0x105BC); (0x10C80, 0x10CB2);
  (0x10CC0, 0x10CF2); (0x118A0, 0x118DF); (0x16E40, 0x16E7F); (0x1D400, 0x1D454); (0x1D456, 0x1D49C);
  (0x1D49E, 0x1D49F); (0x1D4A2, 0x1D4A2); (0x1D4A5, 0x1D4A6); (0x1D4A9, 0x1D4AC); (0x1D4AE, 0x1D4B9);
  (0x1D4BB, 0x1D4BB); (0x1D4BD, 0x1D4C3); (0x1D4C5, 0x1D505); (0x1D507, 0x1D50A); (0x1D50D, 0x1D514);
  (0x1D516, 0x1D51C); (0x1D51E, 0x1D539); (0x1D53B, 0x1D53E); (0x1D540, 0x1D544); (0x1D546, 0x1D546);
  (0x1D54A, 0x1D550); (0x1D552, 0x1D6A5); (0x1D6A8, 0x1D6C0); (0x1D6C2, 0x1D6DA); (0x1D6DC, 0x1D6FA);
  (0x1D6FC, 0x1D714); (0x1D716, 0x1D734); (0x1D736, 0x1D74E); (0x1D750, 0x1D76E); (0x1D770, 0x1D788);
  (0x1D78A, 0x1D7A8); (0x1D7AA, 0x1D7C2); (0x1D7C4, 0x1D7CB); (0x1DF00, 0x1DF09); (0x1DF0B, 0x1DF1E);
  (0x1E900, 0x1E943); (0x1F130, 0x1F149); (0x1F150, 0x1F169); (0x1F170, 0x1F189)
].

Definition upper_point (cp : N) : list N := full_map UPPER_SPECIAL UPPER_RUNS cp.
Definition lower_point (cp : N) : list N := full_map LOWER_SPECIAL LOWER_RUNS cp.

(** The first code point that is not case-ignorable is a cased letter. *)
Fixpoint cased_next (cps : list N) : bool :=
  match cps with
  | [] => false
  | c :: r => if in_set CASE_IGNORABLE c then cased_next r else in_set CASED c
  end.

Definition SIGMA : N := 0x3A3.

(** Final_Sigma: a cased letter before the sigma and none after it, the
    case-ignorable code points in between left aside. *)
Fixpoint lower_points (before_rev rest : list N) : list N :=
  match rest with
  | [] => []
  | c :: r =>
    (if N.eqb c SIGMA && cased_next before_rev && negb (cased_next r)
     then [0x3C2] else lower_point c)
    ++ lower_points (c :: before_rev) r
  end.

Definition toUpperCase (s : jsstring) : jsstring :=
  flat_map code_units (flat_map upper_point (code_points s)).

Definition toLowerCase (s : jsstring) : jsstring :=
  flat_map code_units (lower_points [] (code_points s)).

(** Canonicalize of the pattern semantics, for a pattern with the [i] flag
    and without the [u] flag: the upper case of the code unit if that is one
    code unit, and no code unit outside Basic Latin is taken into it. *)
Definition upper_unit (c : char) : char :=
  match toUpperCase [c] with
  | [cu] => if N.leb 128 c && N.ltb cu 128 then c else cu
  | _ => c
  end.

Close Scope N_scope.

Fixpoint str_eqb (a b : jsstring) : bool :=
  match a, b with
  | [], [] => true
  | x :: a', y :: b' => N.eqb x y && str_eqb a' b'
  | _, _ => false
  end.

(** [s.startsWith(p)] *)
Fixpoint startsWith (s p : jsstring) : bool :=
  match p, s with
  | [], _ => true
  | y :: p', x :: s' => N.eqb x y && startsWith s' p'
  | _ :: _, [] => false
  end.

(** [s.includes(p)] *)
Fixpoint includes (s p : jsstring) : bool :=
  startsWith s p ||
  match s with
  | [] => false
  | _ :: s' => includes s' p
  end.

(** [s.endsWith(p)] *)
Definition endsWith (s p : jsstring) : bool := startsWith (rev s) (rev p).

(** Truthiness of a string value: only the empty string is falsy. *)
Definition truthy (s : jsstring) : bool :=
  match s with [] => false | _ :: _ => true end.

End JsString.
Export JsString.

(** ** Regular expressions

    The fragment of ECMAScript patterns the sources use, with the
    backtracking order of the language: a matcher returns the positions at
    which the pattern can end, in the order in which a backtracking engine
    tries them. *)

Module RegExp.

Inductive regex : Type :=
| Empty
| Lit (c : char)
| Digit
| Space
| AnyChar
| WordBoundary
| StartOfInput
| EndOfInput
| Seq (r1 r2 : regex)
| Alt (r1 r2 : regex)
| Repeat (greedy : bool) (min : nat) (max : option nat) (r : regex).

(** A position in the subject: the code unit before it, if any, and what is
    left of the subject. *)
Definition pos : Type := option char * jsstring.

Definition is_digit (c : char) : bool := in_range 48 57 c.

Definition is_word (c : char) : bool :=
  in_range 97 122 c || in_range 65 90 c || in_range 48 57 c || N.eqb c 95.

Definition is_line_terminator (c : char) : bool :=
  N.eqb c 10 || N.eqb c 13 || N.eqb c 8232 || N.eqb c 8233.

Definition is_space (c : char) : bool :=
  in_range 9 13 c || N.eqb c 32 || N.eqb c 160 || N.eqb c 5760
  || in_range 8192 8202 c || N.eqb c 8232 || N.eqb c 8233 || N.eqb c 8239
  || N.eqb c 8287 || N.eqb c 12288 || N.eqb c 65279.

Definition word_before (p : pos) : bool :=
  match fst p with Some c => is_word c | None => false end.

Definition word_after (p : pos) : bool :=
  match snd p with c :: _ => is_word c | [] => false end.

Definition step_class (f : char -> bool) (p : pos) : list pos :=
  match snd p with
  | x :: xs => if f x then [(Some x, xs)] else []
  | [] => []
  end.

(** RepeatMatcher: an iteration that consumes nothing once the minimum is
    reached is rejected, a greedy quantifier tries one more iteration before
    it tries to stop, a lazy one the other way round. *)
Fixpoint rep_iter (step : pos -> list pos) (greedy : bool) (fuel min : nat)
    (p : pos) : list pos :=
  match fuel with
  | O => [p]
  | S fuel' =>
    let again :=
      flat_map (fun q =>
        if Nat.eqb min 0 && Nat.eqb (length (snd q)) (length (snd p)) then []
        else rep_iter step greedy fuel' (Nat.pred min) q) (step p) in
    if negb (Nat.eqb min 0) then again
    else if greedy then again ++ [p]
    else p :: again
  end.

Section Matcher.

(** The [i] flag. *)
Variable ignoreCase : bool.

Definition canonicalize (c : char) : char :=
  if ignoreCase then upper_unit c else c.

Fixpoint rm (r : regex) (p : pos) : list pos :=
  match r with
  | Empty => [p]
  | Lit c => step_class (fun x => N.eqb (canonicalize x) (canonicalize c)) p
  | Digit => step_class is_digit p
  | Space => step_class is_space p
  | AnyChar => step_class (fun x => negb (is_line_terminator x)) p
  | WordBoundary => if xorb (word_before p) (word_after p) then [p] else []
  | StartOfInput => match fst p with None => [p] | Some _ => [] end
  | EndOfInput => match snd p with [] => [p] | _ :: _ => [] end
  | Seq r1 r2 => flat_map (rm r2) (rm r1 p)
  | Alt r1 r2 => rm r1 p ++ rm r2 p
  | Repeat greedy min max r' =>
    let fuel := match max with
                | Some m => m
                | None => S (min + length (snd p))
                end in
    rep_iter (rm r') greedy fuel min p
  end.

(** The match found at or after a position: what precedes it (reversed in
    the accumulator), the matched text and what follows. *)
Fixpoint exec_from (r : regex) (prev : option char) (before_rev rest : jsstring)
    : option (jsstring * jsstring * jsstring) :=
  match rm r (prev, rest) with
  | (_, rest') :: _ =>
    Some (rev before_rev, firstn (length rest - length rest') rest, rest')
  | [] =>
    match rest with
    | [] => None
    | x :: xs => exec_from r (Some x) (x :: before_rev) xs
    end
  end.

End Matcher.

Record RegExp : Type := mkRegExp { source : regex; flag_i : bool }.

Definition exec (re : RegExp) (s : jsstring) : option (jsstring * jsstring * jsstring) :=
  exec_from (flag_i re) (source re) None [] s.

(** [s.match(re)] without the [g] flag: the text of the first match, [m[0]]. *)
Definition str_match (s : jsstring) (re : RegExp) : option jsstring :=
  match exec re s with
  | Some (_, m, _) => Some m
  | None => None
  end.

(** [re.test(s)] *)
Definition test (re : RegExp) (s : jsstring) : bool :=
  match exec re s with Some _ => true | None => false end.

(** [s.replace(re, by)] without the [g] flag and with a replacement text that
    has no [$] pattern. *)
Definition replace (s : jsstring) (re : RegExp) (by_ : jsstring) : jsstring :=
  match exec re s with
  | Some (before, _, after) => before ++ by_ ++ after
  | None => s
  end.

(** Pattern text without metacharacters. *)
Fixpoint lit (s : jsstring) : regex :=
  match s with
  | [] => Empty
  | [c] => Lit c
  | c :: s' => Seq (Lit c) (lit s')
  end.

(** [a|b|c] *)
Fixpoint alts (rs : list regex) : regex :=
  match rs with
  | [] => Empty
  | [r] => r
  | r :: rs' => Alt r (alts rs')
  end.

Fixpoint seqs (rs : list regex) : regex :=
  match rs with
  | [] => Empty
  | [r] => r
  | r :: rs' => Seq r (seqs rs')
  end.

Definition Plus (r : regex) : regex := Repeat true 1 None r.
Definition Star (r : regex) : regex := Repeat true 0 None r.
Definition LazyStar (r : regex) : regex := Repeat false 0 None r.
Definition Opt (r : regex) : regex := Repeat true 0 (Some 1) r.

End RegExp.
Export RegExp.

(** ** Paths: the POSIX flavour of Node's [path] module *)

Module Path.

Definition slash : char := 47%N.

Fixpoint drop_slashes (s : jsstring) : jsstring :=
  match s with
  | c :: s' => if N.eqb c slash then drop_slashes s' else s
  | [] => []
  end.

Fixpoint take_segment (s : jsstring) : jsstring :=
  match s with
  | c :: s' => if N.eqb c slash then [] else c :: take_segment s'
  | [] => []
  end.

Fixpoint drop_segment (s : jsstring) : jsstring :=
  match s with
  | c :: s' => if N.eqb c slash then s else drop_segment s'
  | [] => []
  end.

(** [path.basename(p)]: trailing separators are ignored, the last segment is
    returned. *)
Definition basename (p : jsstring) : jsstring :=
  rev (take_segment (drop_slashes (rev p))).

(** [path.dirname(p)]: the scan runs from the end down to index 1. *)
Definition dirname (p : jsstring) : jsstring :=
  match p with
  | [] => js "."
  | c0 :: tail =>
    let hasRoot := N.eqb c0 slash in
    match drop_segment (drop_slashes (rev tail)) with
    | [] => if hasRoot then js "/" else js "."
    | _ :: before_rev =>
      if hasRoot && negb (truthy before_rev) then js "//"
      else c0 :: rev before_rev
    end
  end.

(** [path.join(dir, name)] for a directory path and the name of one of its
    entries: the two joined by the separator.  Node normalises the joined
    text as well; for a directory path that is not empty and is normalised
    already (no doubled or trailing separator, no [.] or [..] segment) this
    is the text Node returns. *)
Definition join (dir name : jsstring) : jsstring := dir ++ slash :: name.

(** The state of the loop of [path.basename(p, suffix)]. *)
Record BaseState : Type := mkBaseState {
  b_start : Z;
  b_end : Z;
  b_matchedSlash : bool;
  b_extIdx : Z;
  b_firstNonSlashEnd : Z
}.

Definition charCodeAt (s : jsstring) (i : Z) : option char :=
  if Z.ltb i 0 then None else nth_error s (Z.to_nat i).

Definition slice (s : jsstring) (from to : Z) : jsstring :=
  firstn (Z.to_nat (to - from)) (skipn (Z.to_nat from) s).

Fixpoint basename_loop (suffix rpath : jsstring) (i : Z) (st : BaseState)
    : BaseState :=
  match rpath with
  | [] => st
  | code :: rest =>
    if N.eqb code slash then
      if negb (b_matchedSlash st)
      then mkBaseState (i + 1) (b_end st) (b_matchedSlash st) (b_extIdx st)
             (b_firstNonSlashEnd st)
      else basename_loop suffix rest (i - 1) st
    else
      let st1 :=
        if Z.eqb (b_firstNonSlashEnd st) (-1)
        then mkBaseState (b_start st) (b_end st) false (b_extIdx st) (i + 1)
        else st in
      let st2 :=
        if Z.leb 0 (b_extIdx st1) then
          match charCodeAt suffix (b_extIdx st1) with
          | Some sc =>
            if N.eqb code sc then
              let e := (b_extIdx st1 - 1)%Z in
              mkBaseState (b_start st1) (if Z.eqb e (-1) then i else b_end st1)
                (b_matchedSlash st1) e (b_firstNonSlashEnd st1)
            else
              mkBaseState (b_start st1) (b_firstNonSlashEnd st1)
                (b_matchedSlash st1) (-1) (b_firstNonSlashEnd st1)
          | None =>
            mkBaseState (b_start st1) (b_firstNonSlashEnd st1)
              (b_matchedSlash st1) (-1) (b_firstNonSlashEnd st1)
          end
        else st1 in
      basename_loop suffix rest (i - 1) st2
  end.

(** [path.basename(p, suffix)] *)
Definition basename_ext (p suffix : jsstring) : jsstring :=
  if truthy suffix && Nat.leb (length suffix) (length p) then
    if str_eqb suffix p then []
    else
      let len := Z.of_nat (length p) in
      let st := basename_loop suffix (rev p) (len - 1)
                  (mkBaseState 0 (-1) true (Z.of_nat (length suffix) - 1) (-1)) in
      let end_ :=
        if Z.eqb (b_start st) (b_end st) then b_firstNonSlashEnd st
        else if Z.eqb (b_end st) (-1) then len
        else b_end st in
      slice p (b_start st) end_
  else basename p.

End Path.

(** ** [fs-utils.ts] *)

Definition MARKED_REGEX : RegExp :=
  mkRegExp
    (alts
       [ seqs [ Lit 40%N; LazyStar AnyChar;
                alts [ lit (js "с увед"); lit (js "с уведомл");
                       lit (js "with notification") ];
                LazyStar AnyChar; Lit 41%N ];
         seqs [ WordBoundary; lit (js "с увед"); WordBoundary ];
         seqs [ WordBoundary; lit (js "с уведомл"); WordBoundary ];
         seqs [ WordBoundary; lit (js "with notification"); WordBoundary ];
         seqs [ WordBoundary; lit (js "объединен"); WordBoundary ];
         seqs [ WordBoundary; lit (js "processed"); WordBoundary ] ])
    true.

Definition fileMarkedProcessed (name : jsstring) : bool :=
  test MARKED_REGEX name.

(** ** [merge-service.ts] *)

Module MergeService.

Import Path.

Definition PREFIXES : list jsstring :=
  map js ["СК"; "УА"; "СППК"; "СПД"; "РВС"; "ПУ"; "П"; "ГЗУ"; "ПТП"; "ТТП"; "НА"]%string.

Definition hyphen : char := 45%N.
Definition dot : char := 46%N.

(** [(P1|P2|...)-\d+(?:\.\d+)?] with the [i] flag.  The prefixes hold no
    metacharacter, so escaping them leaves them as they are. *)
Definition CODE_REGEX : RegExp :=
  mkRegExp
    (seqs [ alts (map lit PREFIXES); Lit hyphen; Plus Digit;
            Opt (Seq (Lit dot) (Plus Digit)) ])
    true.

(** [/\d+(?:\.\d+)?/] *)
Definition NUMBER_REGEX : RegExp :=
  mkRegExp (Seq (Plus Digit) (Opt (Seq (Lit dot) (Plus Digit)))) false.

(** [/\.\d{1,4}$/i] *)
Definition SUFFIX_REGEX : RegExp :=
  mkRegExp (seqs [ Lit dot; Repeat true 1 (Some 4) Digit; EndOfInput ]) true.

(** [/^отказы$/i] *)
Definition REJECTS_REGEX : RegExp :=
  mkRegExp (seqs [ StartOfInput; lit (js "отказы"); EndOfInput ]) true.

Definition extractNotificationCode (fullPath : jsstring) : option jsstring :=
  let filename := basename fullPath in
  let foldername := basename (dirname fullPath) in
  match str_match filename CODE_REGEX with
  | Some m0 => Some (toUpperCase m0)
  | None =>
    match find (fun p => includes (toUpperCase foldername) p) PREFIXES with
    | Some folderPrefix =>
      match str_match filename NUMBER_REGEX with
      | Some nm0 => Some (toUpperCase (folderPrefix ++ hyphen :: nm0))
      | None => None
      end
    | None => None
    end
  end.

Definition extractZepbCode (filename : jsstring) : option jsstring :=
  match str_match filename CODE_REGEX with
  | Some m0 => Some (toUpperCase m0)
  | None => None
  end.

(** [null] is [None]; the empty string is falsy as well. *)
Definition canonicalCode (raw : option jsstring) : option jsstring :=
  match raw with
  | None => None
  | Some r =>
    if truthy r then Some (toUpperCase (replace r SUFFIX_REGEX []))
    else None
  end.

(** A [Record<string, string>]: the properties in creation order (the keys
    are codes, never array indices).  Assigning to an existing key keeps its
    place. *)
Definition Dict : Type := list (jsstring * jsstring).

Fixpoint dict_get (d : Dict) (k : jsstring) : option jsstring :=
  match d with
  | [] => None
  | (k', v) :: d' => if str_eqb k' k then Some v else dict_get d' k
  end.

Fixpoint dict_set (d : Dict) (k v : jsstring) : Dict :=
  match d with
  | [] => [(k, v)]
  | (k', v') :: d' =>
    if str_eqb k' k then (k', v) :: d' else (k', v') :: dict_set d' k v
  end.

(** [Object.keys(d)] *)
Definition keys (d : Dict) : list jsstring := map fst d.

(** Truthiness of [d[k]]: a missing property is [undefined]. *)
Definition truthy_opt (v : option jsstring) : bool :=
  match v with Some s => truthy s | None => false end.

(** What [readdir(dir, {withFileTypes: true})] yields, as a tree: an entry
    is a regular file, a directory with its own listing ([None] when reading
    it throws) or something else (a link, a socket). *)
Inductive Dirent : Type :=
| FileEnt (name : jsstring)
| DirEnt (name : jsstring) (items : option (list Dirent))
| OtherEnt (name : jsstring).

Definition ent_name (it : Dirent) : jsstring :=
  match it with
  | FileEnt n => n
  | DirEnt n _ => n
  | OtherEnt n => n
  end.

Section BuildDict.

(** [fsp.stat(p)]: [mtimeMs], or [None] when it throws. *)
Variable stat : jsstring -> option Z.
Variable recursive : bool.
Variable fileFilter : jsstring -> jsstring -> bool.
Variable extractCode : jsstring -> option jsstring.

(** The conflict branch and the plain insertion at the end of the loop
    body. *)
Definition insert_code (dict : Dict) (code full : jsstring) : Dict :=
  match dict_get dict code with
  | Some existing =>
    if truthy existing then
      match stat existing, stat full with
      | Some s1, Some s2 =>
        if Z.gtb s2 s1 then dict_set dict code full else dict
      | _, _ => dict
      end
    else dict_set dict code full
  | None => dict_set dict code full
  end.

(** The loop body for a regular file. *)
Definition scan_file (dir name : jsstring) (dict : Dict) : Dict :=
  let full := join dir name in
  if negb (fileFilter full name) then dict
  else if fileMarkedProcessed name then dict
  else
    match extractCode name with
    | None => dict
    | Some rawCode =>
      if negb (truthy rawCode) then dict
      else
        match canonicalCode (Some rawCode) with
        | None => dict
        | Some code =>
          if negb (truthy code) then dict
          else insert_code dict code full
        end
    end.

Fixpoint scan_item (dir : jsstring) (it : Dirent) (dict : Dict) : Dict :=
  match it with
  | DirEnt name sub =>
    if test REJECTS_REGEX name then dict
    else if recursive then
      match sub with
      | None => dict
      | Some items =>
        fold_left (fun d it' => scan_item (join dir name) it' d) items dict
      end
    else dict
  | FileEnt name => scan_file dir name dict
  | OtherEnt _ => dict
  end.

(** [scan(dir)] on a directory whose listing is [items]: the entries are
    visited in the order of the listing, a directory is descended into at
    the place where it stands. *)
Definition scan (dir : jsstring) (items : option (list Dirent)) (dict : Dict)
    : Dict :=
  match items with
  | None => dict
  | Some l => fold_left (fun d it => scan_item dir it d) l dict
  end.

Definition buildDict (root : jsstring) (items : option (list Dirent)) : Dict :=
  scan root items [].

End BuildDict.

End MergeService.

(** ** [ipc/merge.ts]: the [merge-pdfs] and [cancel-merge] handlers *)

Module MergeIpc.

Import Path MergeService.

Record MergeSummary : Type := mkSummary {
  processed : nat;
  skipped : nat;
  errors : list jsstring;
  log : list jsstring;
  total : nat;
  canceled : bool
}.

(** An entry of the two unmatched lists: [{ code, file }]. *)
Definition Unmatched : Type := (jsstring * jsstring)%type.

(** The payload of a [merge-progress] event. *)
Record Progress : Type := mkProgress {
  pg_processed : nat;
  pg_skipped : nat;
  pg_total : nat;
  pg_current : nat;
  pg_code : option jsstring;
  pg_message : jsstring
}.

(** What the handler sends to the main window and to the log window. *)
Inductive Event : Type :=
| MergeUnmatched (unmatchedNotifications unmatchedZepb : list Unmatched)
| MergeProgress (p : Progress)
| MergeComplete (s : MergeSummary) (registry : option jsstring)
    (unmatchedNotifications unmatchedZepb : list Unmatched)
| LogAppend (msg : jsstring).

(** The state the handler works on: its locals, the module-level flag
    [mergeCancelRequested], the shared [logStore], the events sent so far and
    the calls made to [mergePdfFiles] (notification, ZEPB, output). *)
Record State : Type := mkState {
  summary : MergeSummary;
  processedNames : list jsstring;
  mergeCancelRequested : bool;
  logStore : list jsstring;
  sent : list Event;
  mergeCalls : list (jsstring * jsstring * jsstring)
}.

(** What the handler does not decide: the collaborators' outcomes and the
    moments at which the [cancel-merge] handler runs.  Another handler can
    run only while [merge-pdfs] awaits, so a request reaches the flag during
    the scan of the folders or during a call of [mergePdfFiles]. *)
Record World : Type := mkWorld {
  (** [fs.ensureDir(outputFolder)]: the message of the error it throws *)
  ensureDir_error : option jsstring;
  stat : jsstring -> option Z;
  insertTree : option (list Dirent);
  zepbTree : option (list Dirent);
  cancel_during_scan : bool;
  (** [mergePdfFiles] at iteration [i]: the message of the error it throws *)
  merge_error : nat -> option jsstring;
  cancel_during_merge : nat -> bool;
  (** [createRegisterDocx]: the path written, or the message of the error *)
  createRegisterDocx : jsstring -> list jsstring -> jsstring + jsstring
}.

Definition cancelMsg : jsstring := js "Операция объединения отменена пользователем".

(** The [cancel-merge] handler. *)
Definition cancel_merge (st : State) : State :=
  mkState (summary st) (processedNames st) true (logStore st) (sent st)
    (mergeCalls st).

(** An [await] during which the [cancel-merge] handler runs, or not. *)
Definition awaiting (arrives : bool) (st : State) : State :=
  if arrives then cancel_merge st else st.

Definition push_log (msg : jsstring) (s : MergeSummary) : MergeSummary :=
  mkSummary (processed s) (skipped s) (errors s) (log s ++ [msg]) (total s)
    (canceled s).

Definition push_error (msg : jsstring) (s : MergeSummary) : MergeSummary :=
  mkSummary (processed s) (skipped s) (errors s ++ [msg]) (log s) (total s)
    (canceled s).

Definition incr_skipped (s : MergeSummary) : MergeSummary :=
  mkSummary (processed s) (S (skipped s)) (errors s) (log s) (total s)
    (canceled s).

Definition incr_processed (s : MergeSummary) : MergeSummary :=
  mkSummary (S (processed s)) (skipped s) (errors s) (log s) (total s)
    (canceled s).

Definition set_canceled (s : MergeSummary) : MergeSummary :=
  mkSummary (processed s) (skipped s) (errors s) (log s) (total s) true.

Definition set_total (n : nat) (s : MergeSummary) : MergeSummary :=
  mkSummary (processed s) (skipped s) (errors s) (log s) n (canceled s).

Definition with_summary (s : MergeSummary) (st : State) : State :=
  mkState s (processedNames st) (mergeCancelRequested st) (logStore st)
    (sent st) (mergeCalls st).

(** The three lines that end every branch: the progress event, the push to
    [logStore] and the [log-append] event. *)
Definition report (current : nat) (code : option jsstring) (msg : jsstring)
    (st : State) : State :=
  let s := summary st in
  mkState s (processedNames st) (mergeCancelRequested st)
    (logStore st ++ [msg])
    (sent st ++ [ MergeProgress
                    (mkProgress (processed s) (skipped s) (total s) current
                       code msg);
                  LogAppend msg ])
    (mergeCalls st).

Definition path_of (v : option jsstring) : jsstring :=
  match v with Some p => p | None => [] end.

(** [/\s*\(с увед.*?\)\s*$/i] and [/\s*с увед.*?$/i] *)
Definition MARK_PAREN_SUFFIX : RegExp :=
  mkRegExp
    (seqs [ Star Space; Lit 40%N; lit (js "с увед"); LazyStar AnyChar;
            Lit 41%N; Star Space; EndOfInput ])
    true.

Definition MARK_SUFFIX : RegExp :=
  mkRegExp
    (seqs [ Star Space; lit (js "с увед"); LazyStar AnyChar; EndOfInput ])
    true.

Definition outputName (zepbPath : jsstring) : jsstring :=
  let base :=
    replace (replace (basename_ext zepbPath (js ".pdf")) MARK_PAREN_SUFFIX [])
      MARK_SUFFIX [] in
  base ++ js " (с увед).pdf".

Section Loop.

Variable w : World.
Variables insertDict zepbDict : Dict.
Variable outputFolder : jsstring.

(** The branch taken when the flag is seen at the top of iteration [i]. *)
Definition cancel_exit (i : nat) (st : State) : State :=
  report (S i) None cancelMsg
    (with_summary (set_canceled (push_log cancelMsg (summary st))) st).

(** The body of iteration [i] below the cancellation check. *)
Definition iteration (i : nat) (code : jsstring) (st : State) : State :=
  let notifPath := path_of (dict_get insertDict code) in
  let zepbPathV := dict_get zepbDict code in
  let index := S i in
  if negb (truthy_opt zepbPathV) then
    let msg := js "Не найден ЗЭПБ для уведомления: " ++ basename notifPath
               ++ js " (" ++ code ++ js ")" in
    report index (Some code) msg
      (with_summary (incr_skipped (push_log msg (summary st))) st)
  else
    let zepbPath := path_of zepbPathV in
    if fileMarkedProcessed (basename zepbPath) then
      let msg := js "Пропущен уже обработанный ЗЭПБ: " ++ basename zepbPath in
      report index (Some code) msg
        (with_summary (incr_skipped (push_log msg (summary st))) st)
    else
      let outName := outputName zepbPath in
      let outFull := join outputFolder outName in
      (* await mergePdfFiles(notifPath, zepbPath, outFull) *)
      let st1 :=
        awaiting (cancel_during_merge w i)
          (mkState (summary st) (processedNames st) (mergeCancelRequested st)
             (logStore st) (sent st)
             (mergeCalls st ++ [(notifPath, zepbPath, outFull)])) in
      match merge_error w i with
      | None =>
        let msg := js "Сшито: " ++ outName in
        let st2 :=
          mkState (push_log msg (incr_processed (summary st1)))
            (processedNames st1 ++ [outName]) (mergeCancelRequested st1)
            (logStore st1) (sent st1) (mergeCalls st1) in
        report index (Some code) msg st2
      | Some message =>
        let msg := js "Ошибка при объединении кода " ++ code ++ js ": "
                   ++ message in
        report index (Some code) msg
          (with_summary
             (incr_skipped (push_error msg (push_log msg (summary st1)))) st1)
      end.

(** [for (let i = ...; i < insertCodes.length; i++)], from index [i] on,
    [codes] being what is left of [insertCodes]. *)
Fixpoint merge_loop (codes : list jsstring) (i : nat) (st : State) : State :=
  match codes with
  | [] => st
  | code :: rest =>
    if mergeCancelRequested st then cancel_exit i st
    else merge_loop rest (S i) (iteration i code st)
  end.

End Loop.

(** [new Set(codes).has(code)] *)
Definition set_has (codes : list jsstring) (code : jsstring) : bool :=
  existsb (str_eqb code) codes.

Definition unmatched_of (d : Dict) (others : list jsstring) : list Unmatched :=
  map (fun code => (code, basename (path_of (dict_get d code))))
    (filter (fun code => negb (set_has others code)) (keys d)).

(** What the handler returns, with the state it leaves behind. *)
Record Result : Type := mkResult {
  r_summary : MergeSummary;
  r_registry : option jsstring;
  r_unmatchedNotifications : list Unmatched;
  r_unmatchedZepb : list Unmatched;
  r_state : State
}.

(** [(err as Error).message || String(err)] *)
Definition error_text (message : jsstring) : jsstring :=
  if truthy message then message else js "Error".

(** The [catch] block of the handler. *)
Definition catch_block (message : jsstring) (st : State) : Result :=
  let msg := js "Ошибка объединения: " ++ error_text message in
  let s := push_log msg (push_error msg (summary st)) in
  let st' :=
    mkState s (processedNames st) (mergeCancelRequested st) (logStore st)
      (sent st ++ [MergeComplete s None [] []]) (mergeCalls st) in
  mkResult s None [] [] st'.

Definition initial (flag : bool) (store : list jsstring) : State :=
  mkState (mkSummary 0 0 [] [] 0 false) [] flag store [] [].

Definition pdf_filter (full _name : jsstring) : bool :=
  endsWith (toLowerCase full) (js ".pdf").

Definition zepb_filter (full name : jsstring) : bool :=
  endsWith (toLowerCase full) (js ".pdf")
  && includes (toLowerCase name) (js "зэпб").

(** The dictionaries and the state with which the loop is entered. *)
Definition insertDict_of (w : World) (insertFolder : jsstring)
    (recursiveInsert : bool) : Dict :=
  buildDict (stat w) recursiveInsert pdf_filter extractNotificationCode
    insertFolder (insertTree w).

Definition zepbDict_of (w : World) (mainFolder : jsstring)
    (recursiveMain : bool) : Dict :=
  buildDict (stat w) recursiveMain zepb_filter extractZepbCode
    mainFolder (zepbTree w).

(** The part of the handler from the reset of the flag to the loop: the flag
    is reset, the folders are scanned, the total is set and the unmatched
    lists are sent. *)
Definition before_loop (w : World) (insertDict zepbDict : Dict) (st : State)
    : State :=
  let insertCodes := keys insertDict in
  let zepbCodes := keys zepbDict in
  let st1 :=
    awaiting (cancel_during_scan w)
      (mkState (summary st) (processedNames st) false (logStore st) (sent st)
         (mergeCalls st)) in
  mkState (set_total (length insertCodes) (summary st1)) []
    (mergeCancelRequested st1) (logStore st1)
    (sent st1 ++ [ MergeUnmatched (unmatched_of insertDict zepbCodes)
                     (unmatched_of zepbDict insertCodes) ])
    (mergeCalls st1).

(** The part of the handler after the loop. *)
Definition after_loop (w : World) (insertDict zepbDict : Dict)
    (outputFolder : jsstring) (st : State) : Result :=
  let unmatchedNotifications := unmatched_of insertDict (keys zepbDict) in
  let unmatchedZepb := unmatched_of zepbDict (keys insertDict) in
  let finish (registryPath : option jsstring) :=
    mkResult (summary st) registryPath unmatchedNotifications unmatchedZepb
      (mkState (summary st) (processedNames st) (mergeCancelRequested st)
         (logStore st)
         (sent st ++ [ MergeComplete (summary st) registryPath
                         unmatchedNotifications unmatchedZepb ])
         (mergeCalls st)) in
  match processedNames st with
  | [] => finish None
  | _ :: _ =>
    match createRegisterDocx w outputFolder (processedNames st) with
    | inl registryPath => finish (Some registryPath)
    | inr message => catch_block message st
    end
  end.

(** The [merge-pdfs] handler. *)
Definition merge_pdfs (w : World) (flag : bool) (store : list jsstring)
    (mainFolder insertFolder outputFolder : jsstring)
    (recursiveMain recursiveInsert : bool) : Result :=
  let st0 := initial flag store in
  if negb (truthy mainFolder) || negb (truthy insertFolder)
     || negb (truthy outputFolder)
  then catch_block (js "Не указаны папки") st0
  else
    match ensureDir_error w with
    | Some message => catch_block message st0
    | None =>
      let insertDict := insertDict_of w insertFolder recursiveInsert in
      let zepbDict := zepbDict_of w mainFolder recursiveMain in
      let st1 := before_loop w insertDict zepbDict st0 in
      let st2 := merge_loop w insertDict zepbDict outputFolder
                   (keys insertDict) 0 st1 in
      after_loop w insertDict zepbDict outputFolder st2
    end.

(** The state in which a run that passed the entry guard leaves the loop. *)
Definition loop_exit (w : World) (flag : bool) (store : list jsstring)
    (mainFolder insertFolder outputFolder : jsstring)
    (recursiveMain recursiveInsert : bool) : State :=
  let insertDict := insertDict_of w insertFolder recursiveInsert in
  let zepbDict := zepbDict_of w mainFolder recursiveMain in
  merge_loop w insertDict zepbDict outputFolder (keys insertDict) 0
    (before_loop w insertDict zepbDict (initial flag store)).

(** The entry guard and [ensureDir]. *)
Definition enters (w : World) (mainFolder insertFolder outputFolder : jsstring)
    : bool :=
  truthy mainFolder && truthy insertFolder && truthy outputFolder
  && match ensureDir_error w with None => true | Some _ => false end.

End MergeIpc.

(** ** [ghostscript.ts] *)

Definition qualityToPdfSettings (quality : Z) : jsstring :=
  if Z.leb quality 12 then js "/screen"
  else if Z.leb quality 25 then js "/ebook"
  else if Z.leb quality 40 then js "/printer"
  else js "/prepress".

(** ** [pdf-service.ts] *)

Module PdfService.

Import Path.

Record FileProcessResult : Type := mkFileResult {
  name : jsstring;
  ok : bool;
  inSize : option N;
  outSize : option N;
  error : option jsstring;
  notes : option jsstring
}.

Record CompressResult : Type := mkCompressResult {
  processed : nat;
  total : nat;
  log : list jsstring;
  used : jsstring;
  files : list FileProcessResult
}.

(** The file system and the external tools, as the service sees them; an
    [option jsstring] is the message of the error thrown, if any. *)
Record World : Type := mkWorld {
  ensureDir_error : option jsstring;
  (** [fsp.stat(p)]: [isFile()], or [None] when it throws *)
  stat_isFile : jsstring -> option bool;
  (** [fsp.stat(p).size] before and after the work on a file *)
  size_before : jsstring -> option N;
  size_after : jsstring -> option N;
  pathExists : jsstring -> bool;
  (** [fsp.readdir(dir)]: the names, or the error *)
  readdir : jsstring -> list jsstring + jsstring;
  findGhostscript : option jsstring;
  copyFile_error : jsstring -> option jsstring;
  (** [compressWithGhostscript] on the copy of an input: [success] or [error] *)
  ghostscript_error : jsstring -> Z -> option jsstring;
  copy_error : jsstring -> option jsstring;
  (** the [pdf-lib] fallback: read, load, save, write *)
  fallback_error : jsstring -> option jsstring
}.

Definition number_text (n : nat) : jsstring :=
  js (NilEmpty.string_of_uint (Nat.to_uint n)).

Definition text_of (v : option jsstring) : jsstring :=
  match v with Some s => s | None => js "undefined" end.

Section Service.

Variable w : World.

Definition compressSinglePdf (inputPath outputPath : jsstring) (quality : Z)
    (gsCmd : option jsstring) : FileProcessResult :=
  let fname := basename inputPath in
  let inS := size_before w inputPath in
  match gsCmd with
  | Some _ =>
    match copyFile_error w inputPath with
    | Some message => mkFileResult fname false inS None (Some message) None
    | None =>
      match ghostscript_error w inputPath quality with
      | None =>
        match copy_error w outputPath with
        | Some message => mkFileResult fname false inS None (Some message) None
        | None =>
          mkFileResult fname true inS (size_after w outputPath) None
            (Some (js "GS:" ++ qualityToPdfSettings quality))
        end
      | Some message =>
        mkFileResult fname false inS (size_after w outputPath) (Some message)
          None
      end
    end
  | None =>
    match fallback_error w inputPath with
    | None =>
      mkFileResult fname true inS (size_after w outputPath) None
        (Some (js "fallback"))
    | Some message =>
      mkFileResult fname false inS (size_after w outputPath) (Some message)
        None
    end
  end.

Definition engine_lines (gsCmd : option jsstring) (r : CompressResult)
    : CompressResult :=
  match gsCmd with
  | Some cmd =>
    mkCompressResult (processed r) (total r)
      (log r ++ [js "[INFO] Используется Ghostscript: " ++ cmd])
      (js "ghostscript ("
       ++ (if includes cmd (js "resources") then js "bundled" else js "system")
       ++ js ")")
      (files r)
  | None =>
    mkCompressResult (processed r) (total r)
      (log r ++ [js "[WARN] Ghostscript не найден, fallback режим."])
      (js "pdf-lib(fallback)") (files r)
  end.

(** The caller's side of a run: its own state, what the progress callback
    does to it, and what other handlers do to it while a file is being
    compressed. *)
Variable Caller : Type.
Variable progressCallback : nat -> nat -> FileProcessResult -> Caller -> Caller.
Variable during : nat -> Caller -> Caller.

(** The state of a loop: the result under construction, the caller's state
    and the inputs handed to [compressSinglePdf] so far. *)
Definition LoopState : Type := (CompressResult * Caller * list jsstring)%type.

(** The body shared by the loops of [compressFiles] and [compressPdfs]:
    [fname] and the input path are computed by the caller of this
    definition, the rest is the same text in both. *)
Definition loop_body (outputFolder : jsstring) (quality : Z)
    (gsCmd : option jsstring) (index : nat) (fname inPath : jsstring)
    (st : LoopState) : LoopState :=
  let '(result, caller, attempted) := st in
  let outPath := join outputFolder fname in
  let fileResult := compressSinglePdf inPath outPath quality gsCmd in
  let caller1 := during index caller in
  let result1 :=
    if ok fileResult then
      mkCompressResult (S (processed result)) (total result)
        (log result ++
         [ match gsCmd with
           | Some _ => js "GS: " ++ fname ++ js " -> " ++ outPath ++ js " ("
                       ++ qualityToPdfSettings quality ++ js ")"
           | None => js "FB: " ++ fname ++ js " -> " ++ outPath
           end ])
        (used result) (files result)
    else
      mkCompressResult (processed result) (total result)
        (log result ++
         [js "Ошибка " ++ fname ++ js ": " ++ text_of (error fileResult)])
        (used result) (files result) in
  let result2 :=
    mkCompressResult (processed result1) (total result1) (log result1)
      (used result1) (files result1 ++ [fileResult]) in
  (result2, progressCallback (S index) (total result2) fileResult caller1,
   attempted ++ [inPath]).

Fixpoint files_loop (outputFolder : jsstring) (quality : Z)
    (gsCmd : option jsstring) (pdfs : list jsstring) (index : nat)
    (st : LoopState) : LoopState :=
  match pdfs with
  | [] => st
  | fullPath :: rest =>
    files_loop outputFolder quality gsCmd rest (S index)
      (loop_body outputFolder quality gsCmd index (basename fullPath)
         fullPath st)
  end.

Fixpoint folder_loop (inputFolder outputFolder : jsstring) (quality : Z)
    (gsCmd : option jsstring) (pdfs : list jsstring) (index : nat)
    (st : LoopState) : LoopState :=
  match pdfs with
  | [] => st
  | fname :: rest =>
    folder_loop inputFolder outputFolder quality gsCmd rest (S index)
      (loop_body outputFolder quality gsCmd index fname
         (join inputFolder fname) st)
  end.

Definition empty_result : CompressResult :=
  mkCompressResult 0 0 [] (js "none") [].

Definition failed (prefix message : jsstring) (r : CompressResult)
    (caller : Caller) : LoopState :=
  (mkCompressResult (processed r) (total r) (log r ++ [prefix ++ message])
     (used r) (files r), caller, []).

Definition finished (st : LoopState) : LoopState :=
  let '(r, caller, attempted) := st in
  (mkCompressResult (processed r) (total r)
     ((js "Сжатие завершено. Engine: " ++ used r) :: log r) (used r) (files r),
   caller, attempted).

Definition is_pdf_file (f : jsstring) : bool :=
  match stat_isFile w f with
  | Some true => endsWith (toLowerCase f) (js ".pdf")
  | _ => false
  end.

Definition compressFiles (files : list jsstring) (outputFolder : jsstring)
    (quality : Z) (caller : Caller) : LoopState :=
  let em := js "Ошибка compress-files: " in
  match files with
  | [] => failed em (js "Нет файлов для сжатия") empty_result caller
  | _ :: _ =>
    if negb (truthy outputFolder)
    then failed em (js "Не указана папка вывода") empty_result caller
    else
      match ensureDir_error w with
      | Some message => failed em message empty_result caller
      | None =>
        let pdfs := filter is_pdf_file files in
        let r1 :=
          mkCompressResult 0 (length pdfs)
            [js "Получено " ++ number_text (length pdfs)
             ++ js " PDF для сжатия"]
            (js "none") [] in
        let gsCmd := findGhostscript w in
        finished
          (files_loop outputFolder quality gsCmd pdfs 0
             (engine_lines gsCmd r1, caller, []))
      end
  end.

Definition compressPdfs (inputFolder outputFolder : jsstring) (quality : Z)
    (caller : Caller) : LoopState :=
  let em := js "Ошибка compress-pdfs: " in
  if negb (truthy inputFolder) || negb (truthy outputFolder)
  then failed em (js "Не указаны папки inputFolder/outputFolder")
         empty_result caller
  else if negb (pathExists w inputFolder)
  then failed em (js "Input folder не найден: " ++ inputFolder)
         empty_result caller
  else
    match ensureDir_error w with
    | Some message => failed em message empty_result caller
    | None =>
      match readdir w inputFolder with
      | inr message => failed em message empty_result caller
      | inl all =>
        let pdfs :=
          filter (fun f => endsWith (toLowerCase f) (js ".pdf")) all in
        let r1 :=
          mkCompressResult 0 (length pdfs)
            [js "Найдено " ++ number_text (length pdfs) ++ js " PDF в "
             ++ inputFolder]
            (js "none") [] in
        let gsCmd := findGhostscript w in
        finished
          (folder_loop inputFolder outputFolder quality gsCmd pdfs 0
             (engine_lines gsCmd r1, caller, []))
      end
    end.

End Service.

End PdfService.

(** ** [ipc/compress.ts]: the compress handlers and [cancel-compress] *)

Module CompressIpc.

Import PdfService.

Inductive Event : Type :=
| CompressProgress (index total : nat) (r : FileProcessResult)
| CompressComplete (processed total : nat) (log : list jsstring).

(** The module-level flag and what was sent to the main window. *)
Record State : Type := mkState {
  compressCancelRequested : bool;
  sent : list Event
}.

(** The [cancel-compress] handler. *)
Definition cancel_compress (st : State) : State := mkState true (sent st).

(** The progress callback both handlers pass to the service. *)
Definition progress (index total : nat) (fileResult : FileProcessResult)
    (st : State) : State :=
  if compressCancelRequested st then st
  else mkState (compressCancelRequested st)
         (sent st ++ [CompressProgress index total fileResult]).

Section Handlers.

Variable w : World.
(** [cancel_at i]: the [cancel-compress] handler runs while the file of
    index [i] is being compressed. *)
Variable cancel_at : nat -> bool.

Definition during (index : nat) (st : State) : State :=
  if cancel_at index then cancel_compress st else st.

Definition complete (out : LoopState State) : LoopState State :=
  let '(result, st, attempted) := out in
  (result,
   mkState (compressCancelRequested st)
     (sent st ++ [CompressComplete (processed result) (total result)
                    (log result)]),
   attempted).

(** [compress-files] *)
Definition compress_files (files : list jsstring) (outputFolder : jsstring)
    (quality : Z) (st : State) : LoopState State :=
  complete
    (compressFiles w progress during files outputFolder quality
       (mkState false (sent st))).

(** [compress-pdfs] *)
Definition compress_pdfs (inputFolder outputFolder : jsstring) (quality : Z)
    (st : State) : LoopState State :=
  complete
    (compressPdfs w progress during inputFolder outputFolder quality
       (mkState false (sent st))).

End Handlers.

End CompressIpc.

(** * Properties *)

Unset Implicit Arguments.

(** ** Strings *)

Lemma str_eqb_eq (a b : jsstring) : str_eqb a b = true <-> a = b.
Proof.
  revert b; induction a as [|x a IH]; intros [|y b]; simpl;
    try (split; [discriminate | discriminate]); try tauto.
  rewrite andb_true_iff, N.eqb_eq, IH.
  split; [intros [-> ->]; reflexivity | intros H; inversion H; auto].
Qed.

Lemma str_eqb_refl (a : jsstring) : str_eqb a a = true.
Proof. apply str_eqb_eq; reflexivity. Qed.

Lemma str_eqb_neq (a b : jsstring) : str_eqb a b = false <-> a <> b.
Proof.
  rewrite <- str_eqb_eq. destruct (str_eqb a b); split; congruence.
Qed.

Lemma truthy_app_r (a b : jsstring) : truthy b = true -> truthy (a ++ b) = true.
Proof. destruct a; simpl; auto. Qed.

(** ** Case conversion *)

Module CaseFacts.

Fixpoint below (n : nat) : list N :=
  match n with
  | O => []
  | S k => N.of_nat k :: below k
  end.

Lemma below_In (n : nat) (c : N) : (c < N.of_nat n)%N -> In c (below n).
Proof.
  induction n as [|k IH]; intros H; [lia|].
  simpl. destruct (N.eq_dec c (N.of_nat k)) as [-> | Hne]; [now left|].
  right. apply IH. lia.
Qed.

(** A property of the code units of Basic Latin is checked on each of them. *)
Lemma basic_latin (P : N -> bool) :
  forallb P (below 128) = true -> forall c, (c < 128)%N -> P c = true.
Proof.
  intros H c Hc. rewrite forallb_forall in H. apply H.
  apply below_In. exact Hc.
Qed.

(** In Basic Latin the letters [a] to [z] are the code units that change. *)
Lemma upper_unit_basic_latin (c : char) :
  (c < 128)%N ->
  upper_unit c = if in_range 97 122 c then (c - 32)%N else c.
Proof.
  intros H. apply N.eqb_eq. revert c H.
  apply (basic_latin (fun c =>
    N.eqb (upper_unit c) (if in_range 97 122 c then (c - 32)%N else c))).
  vm_compute. reflexivity.
Qed.

(** No code unit outside Basic Latin is taken into it. *)
Lemma upper_unit_beyond (c : char) : (128 <= c)%N -> (128 <= upper_unit c)%N.
Proof.
  intros H. unfold upper_unit.
  destruct (toUpperCase [c]) as [|cu [|]]; try exact H.
  destruct (N.leb_spec 128 c); [|lia]. simpl.
  destruct (N.ltb_spec cu 128); [exact H | assumption].
Qed.

End CaseFacts.

(** ** The canonicalizer *)

Module CanonicalFacts.

Import MergeService.

Lemma upper_unit_dot (c : char) : N.eqb (upper_unit c) dot = N.eqb c dot.
Proof.
  destruct (N.lt_ge_cases c 128) as [H | H].
  - rewrite (CaseFacts.upper_unit_basic_latin c H). unfold in_range, dot.
    destruct (N.leb_spec 97 c), (N.leb_spec c 122); simpl; try reflexivity.
    destruct (N.eqb_spec (c - 32) 46), (N.eqb_spec c 46); try reflexivity; lia.
  - pose proof (CaseFacts.upper_unit_beyond c H) as H'. unfold dot.
    destruct (N.eqb_spec (upper_unit c) 46), (N.eqb_spec c 46);
      try reflexivity; lia.
Qed.

(** The texts [/\.\d{1,4}$/] matches in full: a dot and one to four digits. *)
Definition suffix_form (rest : jsstring) : bool :=
  match rest with
  | c :: ds =>
    N.eqb c dot && Nat.leb 1 (length ds) && Nat.leb (length ds) 4
    && forallb is_digit ds
  | [] => false
  end.

Lemma eqb_succ_r (n : nat) : Nat.eqb n (S n) = false.
Proof. apply Nat.eqb_neq. lia. Qed.

Ltac by_digits :=
  repeat (match goal with
          | |- context [is_digit ?d] => destruct (is_digit d)
          end; cbn -[is_digit N.eqb]);
  repeat (rewrite eqb_succ_r; cbn -[is_digit N.eqb]);
  try reflexivity; try discriminate; eauto.

Lemma rm_suffix_none (prev : option char) (rest : jsstring) :
  suffix_form rest = false -> rm true (source SUFFIX_REGEX) (prev, rest) = [].
Proof.
  destruct rest as [|c ds]; [reflexivity|].
  cbn -[N.eqb upper_unit is_digit]. rewrite upper_unit_dot.
  change (upper_unit dot) with dot.
  destruct (N.eqb c dot); [|reflexivity].
  destruct ds as [|d1 [|d2 [|d3 [|d4 [|d5 r]]]]]; cbn -[is_digit N.eqb];
    by_digits.
Qed.

Lemma rm_suffix_some (prev : option char) (rest : jsstring) :
  suffix_form rest = true ->
  exists q tl, rm true (source SUFFIX_REGEX) (prev, rest) = (q, []) :: tl.
Proof.
  destruct rest as [|c ds]; [discriminate|].
  cbn -[N.eqb upper_unit is_digit]. rewrite upper_unit_dot.
  change (upper_unit dot) with dot.
  destruct (N.eqb c dot); [|discriminate].
  destruct ds as [|d1 [|d2 [|d3 [|d4 [|d5 r]]]]]; cbn -[is_digit N.eqb];
    by_digits.
Qed.

Lemma dot_not_digit : is_digit dot = false.
Proof. reflexivity. Qed.

Lemma digits_no_dot (a b : jsstring) : forallb is_digit (a ++ dot :: b) = false.
Proof.
  rewrite forallb_app.
  change (forallb is_digit (dot :: b)) with (is_digit dot && forallb is_digit b).
  rewrite dot_not_digit. apply andb_false_r.
Qed.

(** No match starts inside [body] when a dot follows it. *)
Lemma suffix_form_inside (b : char) (body ds : jsstring) :
  suffix_form (b :: body ++ dot :: ds) = false.
Proof.
  simpl. rewrite digits_no_dot. now rewrite andb_false_r.
Qed.

Lemma exec_from_eq (ic : bool) (r : regex) (prev : option char)
    (acc rest : jsstring) :
  exec_from ic r prev acc rest
  = match rm ic r (prev, rest) with
    | (_, rest') :: _ =>
      Some (rev acc, firstn (length rest - length rest') rest, rest')
    | [] =>
      match rest with
      | [] => None
      | x :: xs => exec_from ic r (Some x) (x :: acc) xs
      end
    end.
Proof. destruct rest; reflexivity. Qed.

Lemma exec_from_body (body : jsstring) :
  forall prev acc ds,
    exists prev',
      exec_from true (source SUFFIX_REGEX) prev acc (body ++ dot :: ds)
      = exec_from true (source SUFFIX_REGEX) prev' (rev body ++ acc)
          (dot :: ds).
Proof.
  induction body as [|b body IH]; intros prev acc ds.
  - exists prev. reflexivity.
  - destruct (IH (Some b) (b :: acc) ds) as [prev' E].
    exists prev'. rewrite <- app_comm_cons, exec_from_eq.
    rewrite (rm_suffix_none prev _ (suffix_form_inside b body ds)).
    rewrite E. simpl rev. now rewrite <- app_assoc.
Qed.

Lemma replace_strips (body ds : jsstring) :
  suffix_form (dot :: ds) = true ->
  replace (body ++ dot :: ds) SUFFIX_REGEX [] = body.
Proof.
  intros H. unfold replace, exec.
  change (flag_i SUFFIX_REGEX) with true.
  destruct (exec_from_body body None [] ds) as [prev' ->].
  rewrite exec_from_eq.
  destruct (rm_suffix_some prev' _ H) as (q & tl & ->).
  rewrite !app_nil_r. apply rev_involutive.
Qed.

Lemma exec_from_none (s : jsstring) :
  (forall k, suffix_form (skipn k s) = false) ->
  forall prev acc, exec_from true (source SUFFIX_REGEX) prev acc s = None.
Proof.
  induction s as [|x s IH]; intros H prev acc; rewrite exec_from_eq;
    pose proof (H 0%nat) as H0; simpl skipn in H0;
    rewrite (rm_suffix_none prev _ H0); [reflexivity|].
  apply IH. intros k. exact (H (S k)).
Qed.

Lemma replace_intact (s : jsstring) :
  (forall k, suffix_form (skipn k s) = false) ->
  replace s SUFFIX_REGEX [] = s.
Proof.
  intros H. unfold replace, exec.
  change (flag_i SUFFIX_REGEX) with true.
  now rewrite (exec_from_none s H).
Qed.

(** A text that ends in a dot and digits is cut at its last dot in one way. *)
Lemma last_dot_unique (a a' d d' : jsstring) :
  a ++ dot :: d = a' ++ dot :: d' ->
  forallb is_digit d = true -> forallb is_digit d' = true ->
  a = a' /\ d = d'.
Proof.
  revert a'; induction a as [|x a IH]; intros [|x' a'] E Hd Hd'; simpl in E.
  - inversion E; auto.
  - inversion E; subst. now rewrite digits_no_dot in Hd.
  - inversion E; subst. now rewrite digits_no_dot in Hd'.
  - inversion E; subst. destruct (IH a' H1 Hd Hd') as [-> ->]. auto.
Qed.

Lemma suffix_form_inv (t : jsstring) :
  suffix_form t = true ->
  exists ds, t = dot :: ds /\ forallb is_digit ds = true
             /\ (1 <= length ds <= 4)%nat.
Proof.
  destruct t as [|c ds]; [discriminate|]. unfold suffix_form.
  rewrite !andb_true_iff, N.eqb_eq, !Nat.leb_le.
  intros [[[-> H1] H2] H3]. exists ds. repeat split; assumption.
Qed.

Lemma long_suffix_intact (body ds : jsstring) :
  forallb is_digit ds = true -> (5 <= length ds)%nat ->
  forall k, suffix_form (skipn k (body ++ dot :: ds)) = false.
Proof.
  intros Hd Hl k.
  destruct (suffix_form (skipn k (body ++ dot :: ds))) eqn:E; [|reflexivity].
  destruct (suffix_form_inv _ E) as (ds' & Es & Hd' & Hl').
  pose proof (firstn_skipn k (body ++ dot :: ds)) as F.
  rewrite Es in F. symmetry in F.
  destruct (last_dot_unique _ _ _ _ F Hd Hd') as [_ ->]. lia.
Qed.

Lemma skipn_snoc (k : nat) (pre : jsstring) (c : char) :
  skipn k (pre ++ [c]) = [] \/ exists t, skipn k (pre ++ [c]) = t ++ [c].
Proof.
  revert k; induction pre as [|x pre IH]; intros [|k]; simpl.
  - right. exists []. reflexivity.
  - left. destruct k; reflexivity.
  - right. exists (x :: pre). reflexivity.
  - apply IH.
Qed.

Lemma not_digit_end_intact (pre : jsstring) (c : char) :
  is_digit c = false ->
  forall k, suffix_form (skipn k (pre ++ [c])) = false.
Proof.
  intros Hc k.
  destruct (suffix_form (skipn k (pre ++ [c]))) eqn:E; [|reflexivity].
  destruct (suffix_form_inv _ E) as (ds & Es & Hd & Hl).
  destruct (skipn_snoc k pre c) as [N | [t Et]]; [congruence|].
  rewrite Et in Es.
  destruct t as [|y t]; simpl in Es; inversion Es; subst.
  - simpl in Hl. lia.
  - rewrite forallb_app in Hd. simpl in Hd. rewrite Hc in Hd.
    now rewrite andb_false_r in Hd.
Qed.

(** A text that does not end in a dot and one to four digits is matched
    nowhere. *)
Lemma no_suffix_intact (raw : jsstring) :
  ~ (exists body ds, raw = body ++ dot :: ds /\ forallb is_digit ds = true
                     /\ (1 <= length ds <= 4)%nat) ->
  forall k, suffix_form (skipn k raw) = false.
Proof.
  intros H k.
  destruct (suffix_form (skipn k raw)) eqn:E; [|reflexivity].
  destruct (suffix_form_inv _ E) as (ds & Es & Hd & Hl).
  exfalso. apply H. exists (firstn k raw), ds. repeat split; try tauto.
  rewrite <- Es. symmetry. apply firstn_skipn.
Qed.

(** After a code unit that is neither a digit nor a dot, and with no dot
    behind it, no text ends in a dot and digits. *)
Lemma broken_tail (pre rest : jsstring) (c : char) :
  is_digit c = false -> c <> dot -> ~ In dot rest ->
  forall body ds,
    pre ++ c :: rest = body ++ dot :: ds -> forallb is_digit ds = true -> False.
Proof.
  intros Hc Hdot Hrest.
  induction pre as [|x pre IH]; intros [|b body] ds E Hd; simpl in E;
    inversion E; subst.
  - now apply Hdot.
  - apply Hrest. apply in_or_app. right. now left.
  - rewrite forallb_forall in Hd.
    assert (Hin : In c (pre ++ c :: rest))
      by (apply in_or_app; right; now left).
    apply Hd in Hin. congruence.
  - exact (IH body ds H1 Hd).
Qed.

Lemma no_dot_tail (raw body ds : jsstring) :
  ~ In dot raw -> raw = body ++ dot :: ds -> False.
Proof.
  intros H ->. apply H. apply in_or_app. right. now left.
Qed.

End CanonicalFacts.

(** C9.  For every raw code that ends in a dot and one to four digits,
    [canonicalCode] removes exactly that suffix and nothing else, and
    uppercases what is left.  Every other text is uppercased and otherwise
    left as it is: so a text that ends in a dot and five or more digits, so
    a text in which a code unit that is neither a digit nor a dot has no dot
    behind it (a decimal part that is not at the end, as in [СПД-1.5-22]),
    so a text without any dot.  [null] gives [null], and so does the empty
    string. *)
Theorem canonicalCode_strips_version_suffix :
  (forall body ds : jsstring,
      (1 <= length ds <= 4)%nat -> forallb is_digit ds = true ->
      MergeService.canonicalCode (Some (body ++ MergeService.dot :: ds))
      = Some (toUpperCase body))
  /\ (forall raw : jsstring,
      raw <> [] ->
      ~ (exists body ds,
            raw = body ++ MergeService.dot :: ds
            /\ forallb is_digit ds = true /\ (1 <= length ds <= 4)%nat) ->
      MergeService.canonicalCode (Some raw) = Some (toUpperCase raw))
  /\ (forall body ds : jsstring,
      (5 <= length ds)%nat -> forallb is_digit ds = true ->
      MergeService.canonicalCode (Some (body ++ MergeService.dot :: ds))
      = Some (toUpperCase (body ++ MergeService.dot :: ds)))
  /\ (forall (pre rest : jsstring) (c : char),
      is_digit c = false -> c <> MergeService.dot ->
      ~ In MergeService.dot rest ->
      MergeService.canonicalCode (Some (pre ++ c :: rest))
      = Some (toUpperCase (pre ++ c :: rest)))
  /\ (forall raw : jsstring,
      raw <> [] -> ~ In MergeService.dot raw ->
      MergeService.canonicalCode (Some raw) = Some (toUpperCase raw))
  /\ MergeService.canonicalCode None = None
  /\ MergeService.canonicalCode (Some []) = None.
Proof.
  assert (Hintact : forall raw : jsstring,
             raw <> [] ->
             ~ (exists body ds,
                   raw = body ++ MergeService.dot :: ds
                   /\ forallb is_digit ds = true
                   /\ (1 <= length ds <= 4)%nat) ->
             MergeService.canonicalCode (Some raw) = Some (toUpperCase raw)).
  { intros raw Hne H. unfold MergeService.canonicalCode.
    destruct raw as [|x raw]; [contradiction|].
    change (truthy (x :: raw)) with true. cbv iota.
    rewrite CanonicalFacts.replace_intact; [reflexivity|].
    now apply CanonicalFacts.no_suffix_intact. }
  split; [|split; [exact Hintact|split; [|split; [|split; [|split]]]]].
  - intros body ds Hl Hd. unfold MergeService.canonicalCode.
    rewrite truthy_app_r by reflexivity.
    rewrite CanonicalFacts.replace_strips; [reflexivity|].
    unfold CanonicalFacts.suffix_form.
    rewrite N.eqb_refl, Hd. simpl.
    destruct Hl as [H1 H4].
    apply Nat.leb_le in H4. rewrite H4.
    destruct ds; [simpl in H1; lia | reflexivity].
  - intros body ds Hl Hd. apply Hintact; [now destruct body|].
    intros (body' & ds' & E & Hd' & Hl').
    destruct (CanonicalFacts.last_dot_unique _ _ _ _ E Hd Hd') as [_ ->]. lia.
  - intros pre rest c Hc Hdot Hrest. apply Hintact; [now destruct pre|].
    intros (body & ds & E & Hd & _).
    exact (CanonicalFacts.broken_tail pre rest c Hc Hdot Hrest body ds E Hd).
  - intros raw Hne Hno. apply Hintact; [exact Hne|].
    intros (body & ds & E & _).
    exact (CanonicalFacts.no_dot_tail raw body ds Hno E).
  - reflexivity.
  - reflexivity.
Qed.

Lemma canonicalCode_strips_version_suffix_witness :
  MergeService.canonicalCode (Some (js "спд-1245.25")) = Some (js "СПД-1245")
  /\ MergeService.canonicalCode (Some (js "спд-1245.12345"))
     = Some (js "СПД-1245.12345")
  /\ MergeService.canonicalCode (Some (js "спд-1.5-22"))
     = Some (js "СПД-1.5-22")
  /\ MergeService.canonicalCode (Some (js "спд-1245")) = Some (js "СПД-1245")
  /\ MergeService.canonicalCode (Some (js "é-1.5x")) = Some (js "É-1.5X").
Proof.
  pose proof canonicalCode_strips_version_suffix
    as (Hstrip & Hintact & Hlong & Hbroken & Hnodot & _).
  split; [|split; [|split; [|split]]].
  - apply (Hstrip (js "спд-1245") (js "25")); [simpl; lia | reflexivity].
  - apply (Hlong (js "спд-1245") (js "12345")); [simpl; lia | reflexivity].
  - apply (Hbroken (js "спд-1.5") (js "22") 45%N);
      [reflexivity | discriminate | vm_compute; intuition discriminate].
  - apply (Hnodot (js "спд-1245"));
      [discriminate | vm_compute; intuition discriminate].
  - apply (Hintact (js "é-1.5x")); [discriminate|].
    intros (body & ds & E & Hd & _).
    apply (CanonicalFacts.broken_tail (js "é-1.5") [] 120%N
             eq_refl ltac:(discriminate) ltac:(simpl; tauto) body ds E Hd).
Defined.

(** ** Paths *)

Module PathFacts.

Import Path.

(** The names [readdir] yields: not empty, no separator inside. *)
Definition no_slash (n : jsstring) : bool :=
  forallb (fun c => negb (N.eqb c slash)) n.

Definition wf_name (n : jsstring) : bool := truthy n && no_slash n.

Lemma no_slash_cons (c : char) (n : jsstring) :
  no_slash (c :: n) = negb (N.eqb c slash) && no_slash n.
Proof. reflexivity. Qed.

Lemma no_slash_app (a b : jsstring) :
  no_slash (a ++ b) = no_slash a && no_slash b.
Proof. apply forallb_app. Qed.

Lemma no_slash_rev (n : jsstring) : no_slash (rev n) = no_slash n.
Proof.
  induction n as [|c n IH]; [reflexivity|].
  simpl rev. rewrite no_slash_app, IH, !no_slash_cons.
  change (no_slash []) with true. rewrite andb_true_r. apply andb_comm.
Qed.

Lemma take_segment_cons (c : char) (a : jsstring) :
  take_segment (c :: a) = if N.eqb c slash then [] else c :: take_segment a.
Proof. reflexivity. Qed.

Lemma drop_segment_cons (c : char) (a : jsstring) :
  drop_segment (c :: a) = if N.eqb c slash then c :: a else drop_segment a.
Proof. reflexivity. Qed.

Lemma drop_slashes_cons (c : char) (a : jsstring) :
  drop_slashes (c :: a) = if N.eqb c slash then drop_slashes a else c :: a.
Proof. reflexivity. Qed.

Lemma take_segment_app (a b : jsstring) :
  no_slash a = true -> take_segment (a ++ slash :: b) = a.
Proof.
  induction a as [|c a IH].
  - intros _. simpl app. rewrite take_segment_cons. now rewrite N.eqb_refl.
  - rewrite no_slash_cons, andb_true_iff, negb_true_iff. intros [Hc H].
    rewrite <- app_comm_cons, take_segment_cons, Hc. now rewrite IH.
Qed.

Lemma take_segment_all (a : jsstring) : no_slash a = true -> take_segment a = a.
Proof.
  induction a as [|c a IH]; [reflexivity|].
  rewrite no_slash_cons, andb_true_iff, negb_true_iff. intros [Hc H].
  rewrite take_segment_cons, Hc. now rewrite IH.
Qed.

Lemma drop_segment_all (a : jsstring) : no_slash a = true -> drop_segment a = [].
Proof.
  induction a as [|c a IH]; [reflexivity|].
  rewrite no_slash_cons, andb_true_iff, negb_true_iff. intros [Hc H].
  rewrite drop_segment_cons, Hc. now apply IH.
Qed.

Lemma drop_slashes_id (a : jsstring) : no_slash a = true -> drop_slashes a = a.
Proof.
  destruct a as [|c a]; [reflexivity|].
  rewrite no_slash_cons, andb_true_iff, negb_true_iff. intros [Hc _].
  now rewrite drop_slashes_cons, Hc.
Qed.

Lemma drop_slashes_app (a b : jsstring) :
  wf_name a = true -> drop_slashes (a ++ b) = a ++ b.
Proof.
  unfold wf_name. destruct a as [|c a]; [discriminate|].
  rewrite no_slash_cons, !andb_true_iff, negb_true_iff. intros [_ [Hc _]].
  now rewrite <- app_comm_cons, drop_slashes_cons, Hc.
Qed.

Lemma wf_name_rev (n : jsstring) : wf_name n = true -> wf_name (rev n) = true.
Proof.
  unfold wf_name. rewrite !andb_true_iff, no_slash_rev. intros [T S].
  split; [|exact S].
  destruct n as [|c n]; [discriminate|]. simpl rev.
  destruct (rev n); reflexivity.
Qed.

(** The last segment of [dir/name] is [name]. *)
Lemma basename_join (dir name : jsstring) :
  wf_name name = true -> basename (join dir name) = name.
Proof.
  intros H. unfold basename, join.
  rewrite rev_app_distr. simpl rev. rewrite <- app_assoc. simpl app.
  pose proof (wf_name_rev _ H) as Hr.
  rewrite drop_slashes_app by exact Hr.
  rewrite take_segment_app; [apply rev_involutive|].
  unfold wf_name in Hr. now apply andb_true_iff in Hr.
Qed.

(** A bare name is its own last segment and has the folder [.]. *)
Lemma basename_bare (name : jsstring) :
  no_slash name = true -> basename name = name.
Proof.
  intros H. unfold basename.
  rewrite drop_slashes_id, take_segment_all by now rewrite no_slash_rev.
  apply rev_involutive.
Qed.

Lemma dirname_bare (name : jsstring) :
  no_slash name = true -> dirname name = js ".".
Proof.
  destruct name as [|c0 tail]; [reflexivity|].
  rewrite no_slash_cons, andb_true_iff, negb_true_iff. intros [Hc Ht].
  unfold dirname. rewrite Hc.
  rewrite <- no_slash_rev in Ht.
  now rewrite drop_slashes_id, drop_segment_all.
Qed.

End PathFacts.

(** ** The dictionary builder *)

Module DictFacts.

Import Path MergeService PathFacts.

Lemma dict_get_In (d : Dict) (k v : jsstring) :
  dict_get d k = Some v -> In (k, v) d.
Proof.
  induction d as [|[k' v'] d IH]; simpl; [discriminate|].
  destruct (str_eqb k' k) eqn:E.
  - apply str_eqb_eq in E. intros [= ->]. left. now subst.
  - intros H. right. now apply IH.
Qed.

Lemma dict_set_In (d : Dict) (k v k0 v0 : jsstring) :
  In (k, v) (dict_set d k0 v0) -> In (k, v) d \/ (k = k0 /\ v = v0).
Proof.
  induction d as [|[k' v'] d IH]; simpl.
  - intros [[= <- <-] | []]. now right.
  - destruct (str_eqb k' k0) eqn:E; simpl.
    + apply str_eqb_eq in E. subst k'.
      intros [[= <- <-] | H]; [now right | left; now right].
    + intros [H | H]; [left; now left|].
      destruct (IH H) as [H' | H']; [left; now right | now right].
Qed.

Lemma dict_set_keys_In (d : Dict) (k k0 v0 : jsstring) :
  In k (keys (dict_set d k0 v0)) <-> In k (keys d) \/ k = k0.
Proof.
  unfold keys. induction d as [|[k' v'] d IH]; simpl.
  - split; [intros [<- | []]; now right | intros [[] | ->]; now left].
  - destruct (str_eqb k' k0) eqn:E; simpl.
    + apply str_eqb_eq in E. subst k'. split; [tauto|].
      intros [[-> | H] | ->]; auto.
    + rewrite IH. tauto.
Qed.

Lemma dict_set_NoDup (d : Dict) (k0 v0 : jsstring) :
  NoDup (keys d) -> NoDup (keys (dict_set d k0 v0)).
Proof.
  unfold keys. induction d as [|[k' v'] d IH]; simpl; intros H.
  - constructor; [intros [] | constructor].
  - inversion H as [|? ? Hn Hd]; subst.
    destruct (str_eqb k' k0) eqn:E; simpl.
    + now constructor.
    + constructor; [|now apply IH].
      intros Hin. apply (dict_set_keys_In d k' k0 v0) in Hin.
      destruct Hin as [Hin | ->]; [now apply Hn|].
      now rewrite str_eqb_refl in E.
Qed.

(** Induction on a listing, through the directories it holds. *)
Section DirentInduction.

Variable P : Dirent -> Prop.
Hypothesis Hfile : forall n, P (FileEnt n).
Hypothesis Hother : forall n, P (OtherEnt n).
Hypothesis Hunreadable : forall n, P (DirEnt n None).
Hypothesis Hdir : forall n items, Forall P items -> P (DirEnt n (Some items)).

Fixpoint Dirent_nested_ind (it : Dirent) : P it :=
  match it with
  | FileEnt n => Hfile n
  | OtherEnt n => Hother n
  | DirEnt n None => Hunreadable n
  | DirEnt n (Some items) =>
    Hdir n items
      ((fix all (l : list Dirent) : Forall P l :=
          match l with
          | [] => Forall_nil P
          | x :: r => Forall_cons x (Dirent_nested_ind x) (all r)
          end) items)
  end.

End DirentInduction.

(** A test on every name of a listing. *)
Fixpoint names_all (ok : jsstring -> bool) (it : Dirent) : bool :=
  match it with
  | FileEnt n => ok n
  | OtherEnt n => ok n
  | DirEnt n sub =>
    ok n && match sub with
            | None => true
            | Some items => forallb (names_all ok) items
            end
  end.

(** Every name of a listing is one [readdir] can yield. *)
Definition names_ok : Dirent -> bool := names_all wf_name.

Definition listing_all (ok : jsstring -> bool) (items : option (list Dirent))
    : bool :=
  match items with
  | None => true
  | Some l => forallb (names_all ok) l
  end.

Definition listing_ok : option (list Dirent) -> bool := listing_all wf_name.

Lemma names_all_trivial (it : Dirent) : names_all (fun _ => true) it = true.
Proof.
  induction it as [n | n | n | n items IH] using Dirent_nested_ind;
    try reflexivity.
  simpl. apply forallb_forall. intros x Hx.
  rewrite Forall_forall in IH. now apply IH.
Qed.

Lemma listing_all_trivial (items : option (list Dirent)) :
  listing_all (fun _ => true) items = true.
Proof.
  destruct items as [l|]; [|reflexivity].
  simpl. apply forallb_forall. intros x _. apply names_all_trivial.
Qed.

(** A property of the dictionary that every insertion keeps is a property
    of what [buildDict] returns. *)
Section Invariant.

Variable stat : jsstring -> option Z.
Variable recursive : bool.
Variable fileFilter : jsstring -> jsstring -> bool.
Variable extractCode : jsstring -> option jsstring.
Variable ok : jsstring -> bool.
Variable Inv : Dict -> Prop.

Hypothesis Inv_insert :
  forall d dir name raw code,
    Inv d -> ok name = true ->
    fileFilter (join dir name) name = true ->
    fileMarkedProcessed name = false ->
    extractCode name = Some raw ->
    canonicalCode (Some raw) = Some code ->
    Inv (insert_code stat d code (join dir name)).

Lemma scan_file_inv (dir name : jsstring) (d : Dict) :
  ok name = true -> Inv d ->
  Inv (scan_file stat fileFilter extractCode dir name d).
Proof.
  intros Hn Hd. unfold scan_file.
  destruct (fileFilter (join dir name) name) eqn:Ef; [|exact Hd].
  destruct (fileMarkedProcessed name) eqn:Em; [exact Hd|].
  simpl negb. cbv iota.
  destruct (extractCode name) as [raw|] eqn:Ee; [|exact Hd].
  destruct (truthy raw) eqn:Et; [|exact Hd]. simpl negb. cbv iota.
  destruct (canonicalCode (Some raw)) as [code|] eqn:Ec; [|exact Hd].
  destruct (truthy code); [|exact Hd]. simpl negb. cbv iota.
  now apply (Inv_insert d dir name raw code).
Qed.

Lemma fold_scan_inv (f : Dirent -> Dict -> Dict) (l : list Dirent) :
  Forall (fun it => names_all ok it = true ->
                    forall d, Inv d -> Inv (f it d)) l ->
  forallb (names_all ok) l = true ->
  forall d, Inv d -> Inv (fold_left (fun d it => f it d) l d).
Proof.
  induction 1 as [|it l Hit Hl IH]; simpl; intros Hok d Hd; [exact Hd|].
  apply andb_true_iff in Hok. destruct Hok as [Ho Hr].
  apply IH; [exact Hr|]. now apply Hit.
Qed.

Lemma scan_item_inv (it : Dirent) :
  forall dir d, names_all ok it = true -> Inv d ->
    Inv (scan_item stat recursive fileFilter extractCode dir it d).
Proof.
  induction it as [n | n | n | n items IH] using Dirent_nested_ind;
    intros dir d Hok Hd; simpl.
  - now apply scan_file_inv.
  - exact Hd.
  - destruct (test REJECTS_REGEX n); [exact Hd|].
    destruct recursive; exact Hd.
  - destruct (test REJECTS_REGEX n); [exact Hd|].
    destruct recursive; [|exact Hd].
    simpl in Hok. apply andb_true_iff in Hok. destruct Hok as [_ Hok].
    apply (fold_scan_inv
             (scan_item stat true fileFilter extractCode (join dir n)));
      [|exact Hok|exact Hd].
    eapply Forall_impl; [|exact IH].
    intros a Ha Hoka d' Hd'. now apply Ha.
Qed.

Lemma buildDict_inv (root : jsstring) (tree : option (list Dirent)) :
  listing_all ok tree = true -> Inv [] ->
  Inv (buildDict stat recursive fileFilter extractCode root tree).
Proof.
  intros Hok H0. unfold buildDict, scan.
  destruct tree as [l|]; [|exact H0].
  apply (fold_scan_inv
           (scan_item stat recursive fileFilter extractCode root));
    [|exact Hok|exact H0].
  apply Forall_forall. intros it _ Hit d Hd. now apply scan_item_inv.
Qed.

End Invariant.

Lemma insert_code_cases (stat : jsstring -> option Z) (d : Dict)
    (code full : jsstring) :
  insert_code stat d code full = d
  \/ insert_code stat d code full = dict_set d code full.
Proof.
  unfold insert_code.
  destruct (dict_get d code) as [existing|]; [|now right].
  destruct (truthy existing); [|now right].
  destruct (stat existing), (stat full); auto.
  destruct (Z.gtb _ _); auto.
Qed.

(** What is known of an entry [code -> full] of the dictionary: it is the
    path of a file that passed the filter and the marker test, and [code]
    is the canonical form of the code extracted from the file's name. *)
Definition scanned (fileFilter : jsstring -> jsstring -> bool)
    (extractCode : jsstring -> option jsstring) (code full : jsstring) : Prop :=
  exists dir name raw,
    full = join dir name /\ wf_name name = true
    /\ fileFilter full name = true
    /\ fileMarkedProcessed name = false
    /\ extractCode name = Some raw
    /\ canonicalCode (Some raw) = Some code.

Lemma buildDict_scanned (stat : jsstring -> option Z) (recursive : bool)
    (fileFilter : jsstring -> jsstring -> bool)
    (extractCode : jsstring -> option jsstring)
    (root : jsstring) (tree : option (list Dirent)) :
  listing_ok tree = true ->
  forall k v,
    In (k, v) (buildDict stat recursive fileFilter extractCode root tree) ->
    scanned fileFilter extractCode k v.
Proof.
  intros Hok.
  apply (buildDict_inv stat recursive fileFilter extractCode wf_name
           (fun d => forall k v, In (k, v) d ->
                                 scanned fileFilter extractCode k v));
    [|exact Hok|intros k v []].
  intros d dir name raw code Hd Hn Hf Hm He Hc k v Hin.
  destruct (insert_code_cases stat d code (join dir name)) as [E | E];
    rewrite E in Hin; [now apply Hd|].
  destruct (dict_set_In _ _ _ _ _ Hin) as [H' | [-> ->]]; [now apply Hd|].
  exists dir, name, raw. repeat split; assumption.
Qed.

(** The keys of the dictionary [buildDict] returns are distinct. *)
Lemma buildDict_keys_NoDup (stat : jsstring -> option Z) (recursive : bool)
    (fileFilter : jsstring -> jsstring -> bool)
    (extractCode : jsstring -> option jsstring)
    (root : jsstring) (tree : option (list Dirent)) :
  NoDup (keys (buildDict stat recursive fileFilter extractCode root tree)).
Proof.
  apply (buildDict_inv stat recursive fileFilter extractCode (fun _ => true)
           (fun d => NoDup (keys d)));
    [|apply listing_all_trivial|constructor].
  intros d dir name raw code Hd _ _ _ _ _.
  destruct (insert_code_cases stat d code (join dir name)) as [E | E];
    rewrite E; [exact Hd|now apply dict_set_NoDup].
Qed.

Lemma dict_get_set (d : Dict) (k v k' : jsstring) :
  dict_get (dict_set d k v) k'
  = if str_eqb k k' then Some v else dict_get d k'.
Proof.
  induction d as [|[k0 v0] d IH]; simpl.
  - reflexivity.
  - destruct (str_eqb k0 k) eqn:E; simpl.
    + apply str_eqb_eq in E. subst k0. now destruct (str_eqb k k').
    + destruct (str_eqb k0 k') eqn:E'; [|exact IH].
      apply str_eqb_eq in E'. subst k0.
      destruct (str_eqb k k') eqn:E''; [|reflexivity].
      apply str_eqb_eq in E''. subst k'. now rewrite str_eqb_refl in E.
Qed.

(** ** A scan as a sequence of insertions *)

Section Entries.

Variable stat : jsstring -> option Z.
Variable recursive : bool.
Variable fileFilter : jsstring -> jsstring -> bool.
Variable extractCode : jsstring -> option jsstring.

(** The entry the loop body makes of a regular file, if it makes one. *)
Definition entry_of (dir name : jsstring) : option (jsstring * jsstring) :=
  let full := join dir name in
  if negb (fileFilter full name) then None
  else if fileMarkedProcessed name then None
  else
    match extractCode name with
    | None => None
    | Some rawCode =>
      if negb (truthy rawCode) then None
      else
        match canonicalCode (Some rawCode) with
        | None => None
        | Some code => if negb (truthy code) then None else Some (code, full)
        end
    end.

(** The entries a scan makes of a listing, in the order of the scan. *)
Fixpoint entries_of (dir : jsstring) (it : Dirent)
    : list (jsstring * jsstring) :=
  match it with
  | FileEnt name =>
    match entry_of dir name with Some e => [e] | None => [] end
  | DirEnt name sub =>
    if test REJECTS_REGEX name then []
    else if recursive then
      match sub with
      | None => []
      | Some items => flat_map (entries_of (join dir name)) items
      end
    else []
  | OtherEnt _ => []
  end.

Definition insert_all (l : list (jsstring * jsstring)) (d : Dict) : Dict :=
  fold_left (fun d e => insert_code stat d (fst e) (snd e)) l d.

Lemma insert_all_app (l1 l2 : list (jsstring * jsstring)) (d : Dict) :
  insert_all (l1 ++ l2) d = insert_all l2 (insert_all l1 d).
Proof. apply fold_left_app. Qed.

Lemma scan_file_entry (dir name : jsstring) (d : Dict) :
  scan_file stat fileFilter extractCode dir name d
  = match entry_of dir name with
    | Some e => insert_code stat d (fst e) (snd e)
    | None => d
    end.
Proof.
  unfold scan_file, entry_of.
  destruct (negb (fileFilter (join dir name) name)); [reflexivity|].
  destruct (fileMarkedProcessed name); [reflexivity|].
  destruct (extractCode name) as [raw|]; [|reflexivity].
  destruct (negb (truthy raw)); [reflexivity|].
  destruct (canonicalCode (Some raw)) as [code|]; [|reflexivity].
  destruct (negb (truthy code)); reflexivity.
Qed.

Lemma fold_entries (f : Dirent -> Dict -> Dict)
    (g : Dirent -> list (jsstring * jsstring)) (l : list Dirent) :
  Forall (fun it => forall d, f it d = insert_all (g it) d) l ->
  forall d,
    fold_left (fun d it => f it d) l d = insert_all (flat_map g l) d.
Proof.
  induction 1 as [|it l Hit Hl IH]; intros d; simpl; [reflexivity|].
  now rewrite insert_all_app, IH, Hit.
Qed.

Lemma scan_item_entries (it : Dirent) :
  forall dir d,
    scan_item stat recursive fileFilter extractCode dir it d
    = insert_all (entries_of dir it) d.
Proof.
  induction it as [n | n | n | n items IH] using Dirent_nested_ind;
    intros dir d; simpl.
  - rewrite scan_file_entry. now destruct (entry_of dir n).
  - reflexivity.
  - destruct (test REJECTS_REGEX n); [reflexivity|].
    now destruct recursive.
  - destruct (test REJECTS_REGEX n); [reflexivity|].
    destruct recursive; [|reflexivity].
    apply (fold_entries
             (scan_item stat true fileFilter extractCode (join dir n))
             (entries_of (join dir n))).
    eapply Forall_impl; [|exact IH]. intros a Ha d'. apply Ha.
Qed.

Definition listing_entries (root : jsstring) (tree : option (list Dirent))
    : list (jsstring * jsstring) :=
  match tree with
  | None => []
  | Some l => flat_map (entries_of root) l
  end.

Lemma scan_entries (root : jsstring) (tree : option (list Dirent)) (d : Dict) :
  scan stat recursive fileFilter extractCode root tree d
  = insert_all (listing_entries root tree) d.
Proof.
  destruct tree as [l|]; [|reflexivity]. simpl.
  apply (fold_entries (scan_item stat recursive fileFilter extractCode root)
           (entries_of root)).
  apply Forall_forall. intros it _ d'. apply scan_item_entries.
Qed.

Lemma entry_of_truthy (dir name : jsstring) (e : jsstring * jsstring) :
  entry_of dir name = Some e -> truthy (snd e) = true.
Proof.
  unfold entry_of.
  destruct (negb (fileFilter (join dir name) name)); [discriminate|].
  destruct (fileMarkedProcessed name); [discriminate|].
  destruct (extractCode name) as [raw|]; [|discriminate].
  destruct (negb (truthy raw)); [discriminate|].
  destruct (canonicalCode (Some raw)) as [code|]; [|discriminate].
  destruct (negb (truthy code)); [discriminate|].
  intros [= <-]. apply truthy_app_r. reflexivity.
Qed.

Lemma entries_of_truthy (it : Dirent) :
  forall dir, Forall (fun e => truthy (snd e) = true) (entries_of dir it).
Proof.
  induction it as [n | n | n | n items IH] using Dirent_nested_ind;
    intros dir; simpl; try constructor.
  - destruct (entry_of dir n) as [e|] eqn:E; constructor; [|constructor].
    now apply (entry_of_truthy dir n).
  - destruct (test REJECTS_REGEX n); [constructor|].
    destruct recursive; constructor.
  - destruct (test REJECTS_REGEX n); [constructor|].
    destruct recursive; [|constructor].
    apply Forall_flat_map. eapply Forall_impl; [|exact IH].
    intros a Ha. apply Ha.
Qed.

Lemma listing_entries_truthy (root : jsstring) (tree : option (list Dirent)) :
  Forall (fun e => truthy (snd e) = true) (listing_entries root tree).
Proof.
  destruct tree as [l|]; [|constructor]. simpl.
  apply Forall_flat_map. apply Forall_forall. intros it _.
  apply entries_of_truthy.
Qed.

(** The entry [cur] of the dictionary stands against the file [p]: the
    conflict branch would keep [cur]. *)
Definition keeps (cur p : jsstring) : Prop :=
  match stat cur, stat p with
  | Some s1, Some s2 => Z.gtb s2 s1 = false
  | _, _ => True
  end.

(** The file of the entry [e] has been dealt with: its code has an entry
    that stands against it. *)
Definition settled (d : Dict) (e : jsstring * jsstring) : Prop :=
  exists cur,
    dict_get d (fst e) = Some cur /\ truthy cur = true /\ keeps cur (snd e).

Lemma keeps_refl (p : jsstring) : keeps p p.
Proof.
  unfold keeps. destruct (stat p) as [t|]; [|exact I].
  rewrite Z.gtb_ltb. apply Z.ltb_irrefl.
Qed.

Lemma insert_settled (d : Dict) (e : jsstring * jsstring) :
  settled d e -> insert_code stat d (fst e) (snd e) = d.
Proof.
  intros (cur & Hg & Ht & Hk). unfold insert_code. rewrite Hg, Ht.
  unfold keeps in Hk.
  destruct (stat cur), (stat (snd e)); try reflexivity. now rewrite Hk.
Qed.

Lemma insert_all_settled (l : list (jsstring * jsstring)) (d : Dict) :
  Forall (settled d) l -> insert_all l d = d.
Proof.
  induction 1 as [|e l He Hl IH]; [reflexivity|].
  simpl. rewrite (insert_settled d e He). exact IH.
Qed.

Lemma insert_settles (d : Dict) (c p : jsstring) :
  truthy p = true -> settled (insert_code stat d c p) (c, p).
Proof.
  intros Hp. unfold settled, insert_code. simpl fst. simpl snd.
  assert (Hset : exists cur,
             dict_get (dict_set d c p) c = Some cur /\ truthy cur = true
             /\ keeps cur p).
  { exists p. rewrite dict_get_set, str_eqb_refl. auto using keeps_refl. }
  destruct (dict_get d c) as [existing|] eqn:Eg; [|exact Hset].
  destruct (truthy existing) eqn:Et; [|exact Hset].
  destruct (stat existing) as [s1|] eqn:E1.
  - destruct (stat p) as [s2|] eqn:E2.
    + destruct (Z.gtb s2 s1) eqn:G; [exact Hset|].
      exists existing. unfold keeps. rewrite E1, E2. auto.
    + exists existing. unfold keeps. rewrite E1, E2. auto.
  - exists existing. unfold keeps. rewrite E1. auto.
Qed.

Lemma insert_keeps_settled (d : Dict) (c p : jsstring)
    (e : jsstring * jsstring) :
  truthy p = true -> settled d e -> settled (insert_code stat d c p) e.
Proof.
  intros Hp (cur & Hg & Ht & Hk).
  assert (Hsame : settled d e) by (exists cur; auto).
  assert (Hframe : str_eqb c (fst e) = false ->
                   settled (dict_set d c p) e).
  { intros Hne. exists cur. rewrite dict_get_set, Hne. auto. }
  unfold insert_code.
  destruct (dict_get d c) as [existing|] eqn:Eg.
  - destruct (str_eqb c (fst e)) eqn:Ec.
    + apply str_eqb_eq in Ec. subst c.
      rewrite Hg in Eg. injection Eg as <-. rewrite Ht.
      destruct (stat cur) as [s1|] eqn:E1; [|exact Hsame].
      destruct (stat p) as [s2|] eqn:E2; [|exact Hsame].
      destruct (Z.gtb s2 s1) eqn:G; [|exact Hsame].
      exists p. rewrite dict_get_set, str_eqb_refl.
      split; [reflexivity|]. split; [exact Hp|].
      unfold keeps in *. rewrite E1 in Hk. rewrite E2.
      destruct (stat (snd e)) as [t0|]; [|exact I].
      apply Z.gtb_lt in G. rewrite Z.gtb_ltb in *.
      apply Z.ltb_ge in Hk. apply Z.ltb_ge. lia.
    + destruct (truthy existing); [|now apply Hframe].
      destruct (stat existing), (stat p); try exact Hsame.
      destruct (Z.gtb _ _); [now apply Hframe | exact Hsame].
  - destruct (str_eqb c (fst e)) eqn:Ec; [|now apply Hframe].
    apply str_eqb_eq in Ec. subst c. congruence.
Qed.

Lemma insert_all_settles (l : list (jsstring * jsstring)) :
  Forall (fun e => truthy (snd e) = true) l ->
  forall d done,
    Forall (settled d) done -> Forall (settled (insert_all l d)) (done ++ l).
Proof.
  induction 1 as [|e l He Hl IH]; intros d done Hd.
  - now rewrite app_nil_r.
  - simpl.
    replace (done ++ e :: l) with ((done ++ [e]) ++ l)
      by now rewrite <- app_assoc.
    apply IH. apply Forall_app. split.
    + eapply Forall_impl; [|exact Hd].
      intros a Ha. now apply insert_keeps_settled.
    + constructor; [|constructor].
      destruct e as [c p]. now apply insert_settles.
Qed.

(** A second scan that would go on filling the dictionary of the first one
    changes nothing in it. *)
Lemma rescan_changes_nothing (root : jsstring) (tree : option (list Dirent)) :
  scan stat recursive fileFilter extractCode root tree
    (buildDict stat recursive fileFilter extractCode root tree)
  = buildDict stat recursive fileFilter extractCode root tree.
Proof.
  unfold buildDict. rewrite !scan_entries.
  apply insert_all_settled.
  apply (insert_all_settles _ (listing_entries_truthy root tree) [] []).
  constructor.
Qed.

End Entries.

End DictFacts.

(** C8.  Whatever the folder tree, no path held by the dictionary that
    [buildDict] returns has a file name on which [fileMarkedProcessed]
    answers [true]; a second scan of the same tree returns the same
    dictionary (a scan reads the listing and the modification times only and
    fills a dictionary of its own, empty at the start), and it would return
    it even if it went on filling the dictionary of the first scan. *)
Theorem buildDict_skips_marked_files :
  forall (stat : jsstring -> option Z) (recursive : bool)
         (fileFilter : jsstring -> jsstring -> bool)
         (extractCode : jsstring -> option jsstring)
         (root : jsstring) (tree : option (list MergeService.Dirent)),
    DictFacts.listing_ok tree = true ->
    let first :=
      MergeService.buildDict stat recursive fileFilter extractCode root tree in
    let second :=
      MergeService.buildDict stat recursive fileFilter extractCode root tree in
    (forall code full,
        In (code, full) first ->
        fileMarkedProcessed (Path.basename full) = false)
    /\ second = first
    /\ MergeService.scan stat recursive fileFilter extractCode root tree first
       = first.
Proof.
  intros stat recursive fileFilter extractCode root tree Hok first second.
  split; [|split; [reflexivity | apply DictFacts.rescan_changes_nothing]].
  intros code full Hin.
  destruct (DictFacts.buildDict_scanned stat recursive fileFilter extractCode
              root tree Hok code full Hin)
    as (dir & name & raw & -> & Hn & _ & Hm & _).
  now rewrite PathFacts.basename_join.
Qed.

(** The marked copy of a merged file is left out, scan after scan. *)
Lemma buildDict_skips_marked_files_witness :
  let tree :=
    Some [ MergeService.FileEnt (js "ЗЭПБ СПД-1.pdf");
           MergeService.FileEnt (js "ЗЭПБ СПД-1 (с увед).pdf");
           MergeService.DirEnt (js "архив")
             (Some [MergeService.FileEnt (js "ЗЭПБ СПД-2 (с увед).pdf")]) ] in
  let dict :=
    MergeService.buildDict (fun _ => None) true MergeIpc.zepb_filter
      MergeService.extractZepbCode (js "main") tree in
  dict = [(js "СПД-1", js "main/ЗЭПБ СПД-1.pdf")]
  /\ fileMarkedProcessed (Path.basename (js "main/ЗЭПБ СПД-1.pdf")) = false.
Proof.
  split; [vm_compute; reflexivity|].
  apply (proj1 (buildDict_skips_marked_files (fun _ => None) true
                  MergeIpc.zepb_filter MergeService.extractZepbCode (js "main")
                  (Some [ MergeService.FileEnt (js "ЗЭПБ СПД-1.pdf");
                          MergeService.FileEnt (js "ЗЭПБ СПД-1 (с увед).pdf");
                          MergeService.DirEnt (js "архив")
                            (Some [MergeService.FileEnt
                                     (js "ЗЭПБ СПД-2 (с увед).pdf")]) ])
                  eq_refl) (js "СПД-1")).
  vm_compute. left. reflexivity.
Defined.

(** The folder [.] of a bare name holds no prefix. *)
Lemma no_prefix_in_dot :
  find (fun p => includes (toUpperCase (Path.basename (js "."))) p)
    MergeService.PREFIXES = None.
Proof. reflexivity. Qed.

Lemma extractNotificationCode_bare (name : jsstring) :
  PathFacts.no_slash name = true ->
  MergeService.extractNotificationCode name
  = MergeService.extractZepbCode name.
Proof.
  intros H.
  unfold MergeService.extractNotificationCode, MergeService.extractZepbCode.
  rewrite PathFacts.basename_bare, PathFacts.dirname_bare by exact H.
  rewrite no_prefix_in_dot.
  now destruct (str_match name MergeService.CODE_REGEX).
Qed.

(** C10.  [buildDict] hands the bare file name to the extractor.  On a bare
    name [extractNotificationCode] never reaches its folder fallback: the
    folder it computes is [.], which holds no prefix, so the answer is the
    match of the prefix pattern in the name, uppercased, or nothing.  A file
    is therefore in the notification dictionary only if the pattern matches
    its own name. *)
Theorem notification_fallback_unreachable_in_buildDict :
  (forall name : jsstring,
      PathFacts.no_slash name = true ->
      MergeService.extractNotificationCode name
      = match str_match name MergeService.CODE_REGEX with
        | Some m0 => Some (toUpperCase m0)
        | None => None
        end)
  /\ (forall (stat : jsstring -> option Z) (recursive : bool)
             (fileFilter : jsstring -> jsstring -> bool)
             (root : jsstring) (tree : option (list MergeService.Dirent)),
        DictFacts.listing_ok tree = true ->
        forall code full,
          In (code, full)
             (MergeService.buildDict stat recursive fileFilter
                MergeService.extractNotificationCode root tree) ->
          exists m0,
            str_match (Path.basename full) MergeService.CODE_REGEX = Some m0
            /\ MergeService.canonicalCode (Some (toUpperCase m0)) = Some code).
Proof.
  split.
  - intros name H. now rewrite extractNotificationCode_bare.
  - intros stat recursive fileFilter root tree Hok code full Hin.
    destruct (DictFacts.buildDict_scanned stat recursive fileFilter
                MergeService.extractNotificationCode root tree Hok code full Hin)
      as (dir & name & raw & -> & Hn & _ & _ & He & Hc).
    rewrite PathFacts.basename_join by exact Hn.
    rewrite extractNotificationCode_bare in He.
    + unfold MergeService.extractZepbCode in He.
      destruct (str_match name MergeService.CODE_REGEX) as [m0|];
        [|discriminate].
      exists m0. split; [reflexivity|]. now inversion He; subst.
    + unfold PathFacts.wf_name in Hn. now apply andb_true_iff in Hn.
Qed.

(** A file named by its number alone stays out of the dictionary although
    its folder carries a prefix; its neighbour with the code in its name
    gets in. *)
Lemma notification_fallback_unreachable_in_buildDict_witness :
  let tree :=
    Some [ MergeService.DirEnt (js "СПД")
             (Some [ MergeService.FileEnt (js "12.pdf");
                     MergeService.FileEnt (js "увед спд-7.pdf") ]) ] in
  MergeService.extractNotificationCode (js "12.pdf") = None
  /\ MergeService.buildDict (fun _ => None) true MergeIpc.pdf_filter
       MergeService.extractNotificationCode (js "ins") tree
     = [(js "СПД-7", js "ins/СПД/увед спд-7.pdf")]
  /\ exists m0,
       str_match (Path.basename (js "ins/СПД/увед спд-7.pdf"))
         MergeService.CODE_REGEX = Some m0
       /\ MergeService.canonicalCode (Some (toUpperCase m0))
          = Some (js "СПД-7").
Proof.
  split; [|split].
  - exact (proj1 notification_fallback_unreachable_in_buildDict (js "12.pdf")
             eq_refl).
  - vm_compute. reflexivity.
  - apply (proj2 notification_fallback_unreachable_in_buildDict
             (fun _ => None) true MergeIpc.pdf_filter (js "ins")
             (Some [ MergeService.DirEnt (js "СПД")
                       (Some [ MergeService.FileEnt (js "12.pdf");
                               MergeService.FileEnt (js "увед спд-7.pdf") ]) ])
             eq_refl).
    vm_compute. left. reflexivity.
Defined.

(** A file the loop body of [buildDict] takes under [code]: it passes the
    filter and the marker test, and its name yields [code]. *)
Definition accepted (fileFilter : jsstring -> jsstring -> bool)
    (extractCode : jsstring -> option jsstring) (dir name code : jsstring)
    : Prop :=
  fileFilter (Path.join dir name) name = true
  /\ fileMarkedProcessed name = false
  /\ truthy code = true
  /\ exists raw, extractCode name = Some raw /\ truthy raw = true
                 /\ MergeService.canonicalCode (Some raw) = Some code.

Lemma scan_file_accepted (stat : jsstring -> option Z)
    (fileFilter : jsstring -> jsstring -> bool)
    (extractCode : jsstring -> option jsstring)
    (dir name code : jsstring) (d : MergeService.Dict) :
  accepted fileFilter extractCode dir name code ->
  MergeService.scan_file stat fileFilter extractCode dir name d
  = MergeService.insert_code stat d code (Path.join dir name).
Proof.
  intros (Hf & Hm & Hc & raw & He & Hr & Hk).
  unfold MergeService.scan_file. now rewrite Hf, Hm, He, Hr, Hk, Hc.
Qed.

Lemma dict_get_set_same (d : MergeService.Dict) (k v : jsstring) :
  MergeService.dict_get (MergeService.dict_set d k v) k = Some v.
Proof.
  induction d as [|[k' v'] d IH]; simpl.
  - now rewrite str_eqb_refl.
  - destruct (str_eqb k' k) eqn:E; simpl; now rewrite E.
Qed.

(** Two accepted files with one code, met one after the other by a scan
    whose dictionary has no entry for the code yet. *)
Lemma scan_pair (stat : jsstring -> option Z)
    (fileFilter : jsstring -> jsstring -> bool)
    (extractCode : jsstring -> option jsstring)
    (d : MergeService.Dict) (dir1 n1 dir2 n2 code : jsstring) :
  MergeService.dict_get d code = None ->
  accepted fileFilter extractCode dir1 n1 code ->
  accepted fileFilter extractCode dir2 n2 code ->
  MergeService.dict_get
    (MergeService.scan_file stat fileFilter extractCode dir2 n2
       (MergeService.scan_file stat fileFilter extractCode dir1 n1 d)) code
  = Some match stat (Path.join dir1 n1), stat (Path.join dir2 n2) with
         | Some t1, Some t2 =>
           if Z.gtb t2 t1 then Path.join dir2 n2 else Path.join dir1 n1
         | _, _ => Path.join dir1 n1
         end.
Proof.
  intros Hd A1 A2.
  rewrite (scan_file_accepted stat _ _ _ _ _ _ A1),
    (scan_file_accepted stat _ _ _ _ _ _ A2).
  unfold MergeService.insert_code at 2. rewrite Hd.
  unfold MergeService.insert_code. rewrite dict_get_set_same.
  assert (T : truthy (Path.join dir1 n1) = true)
    by (apply truthy_app_r; reflexivity).
  rewrite T.
  destruct (stat (Path.join dir1 n1)) as [t1|];
    destruct (stat (Path.join dir2 n2)) as [t2|];
    try apply dict_get_set_same.
  destruct (Z.gtb t2 t1); apply dict_get_set_same.
Qed.

(** C5.  Two files that map to the same canonical code, met one after the
    other by a scan that has no entry for the code yet: when both
    modification times can be read and one is strictly later, that file is
    the one the dictionary keeps, whichever of the two the scan meets first;
    when the times are equal, or the time of either file cannot be read, the
    file met first is kept. *)
Theorem buildDict_conflict_newest_wins :
  forall (stat : jsstring -> option Z)
         (fileFilter : jsstring -> jsstring -> bool)
         (extractCode : jsstring -> option jsstring)
         (d : MergeService.Dict) (dir1 n1 dir2 n2 code : jsstring),
    MergeService.dict_get d code = None ->
    accepted fileFilter extractCode dir1 n1 code ->
    accepted fileFilter extractCode dir2 n2 code ->
    let p1 := Path.join dir1 n1 in
    let p2 := Path.join dir2 n2 in
    let file1 := MergeService.scan_file stat fileFilter extractCode dir1 n1 in
    let file2 := MergeService.scan_file stat fileFilter extractCode dir2 n2 in
    let first_then_second := file2 (file1 d) in
    let second_then_first := file1 (file2 d) in
    (forall t1 t2, stat p1 = Some t1 -> stat p2 = Some t2 -> (t1 < t2)%Z ->
        MergeService.dict_get first_then_second code = Some p2
        /\ MergeService.dict_get second_then_first code = Some p2)
    /\ (forall t, stat p1 = Some t -> stat p2 = Some t ->
        MergeService.dict_get first_then_second code = Some p1)
    /\ (stat p1 = None \/ stat p2 = None ->
        MergeService.dict_get first_then_second code = Some p1).
Proof.
  intros stat fileFilter extractCode d dir1 n1 dir2 n2 code Hd A1 A2
    p1 p2 file1 file2 first_then_second second_then_first.
  subst first_then_second second_then_first file1 file2. cbv beta.
  rewrite (scan_pair stat _ _ d _ _ _ _ _ Hd A1 A2).
  rewrite (scan_pair stat _ _ d _ _ _ _ _ Hd A2 A1).
  fold p1 p2.
  split; [|split].
  - intros t1 t2 -> -> Hlt.
    destruct (Z.gtb_spec t2 t1); [|lia].
    destruct (Z.gtb_spec t1 t2); [lia|]. auto.
  - intros t -> ->. rewrite Z.gtb_ltb, Z.ltb_irrefl. reflexivity.
  - intros [-> | ->]; [reflexivity|]. now destruct (stat p1).
Qed.

(** Two revisions of one notification in a folder, the later one met first
    or last. *)
Lemma buildDict_conflict_newest_wins_witness :
  let stat := fun p =>
    if str_eqb p (js "ins/СПД-5.1.pdf") then Some 100%Z
    else if str_eqb p (js "ins/СПД-5.2.pdf") then Some 200%Z
    else None in
  MergeService.dict_get
    (MergeService.buildDict stat false MergeIpc.pdf_filter
       MergeService.extractNotificationCode (js "ins")
       (Some [ MergeService.FileEnt (js "СПД-5.1.pdf");
               MergeService.FileEnt (js "СПД-5.2.pdf") ]))
    (js "СПД-5")
  = Some (js "ins/СПД-5.2.pdf")
  /\ MergeService.dict_get
       (MergeService.buildDict stat false MergeIpc.pdf_filter
          MergeService.extractNotificationCode (js "ins")
          (Some [ MergeService.FileEnt (js "СПД-5.2.pdf");
                  MergeService.FileEnt (js "СПД-5.1.pdf") ]))
       (js "СПД-5")
     = Some (js "ins/СПД-5.2.pdf").
Proof.
  refine (proj1 (buildDict_conflict_newest_wins
                   (fun p =>
                      if str_eqb p (js "ins/СПД-5.1.pdf") then Some 100%Z
                      else if str_eqb p (js "ins/СПД-5.2.pdf") then Some 200%Z
                      else None)
                   MergeIpc.pdf_filter MergeService.extractNotificationCode
                   [] (js "ins") (js "СПД-5.1.pdf") (js "ins") (js "СПД-5.2.pdf")
                   (js "СПД-5") eq_refl _ _)
                100%Z 200%Z eq_refl eq_refl _).
  - repeat split. exists (js "СПД-5.1"). repeat split.
  - repeat split. exists (js "СПД-5.2"). repeat split.
  - reflexivity.
Defined.

(** ** The merge loop *)

Module LoopFacts.

Import Path MergeService MergeIpc.

Arguments js : simpl never.
Arguments outputName : simpl never.
Arguments basename : simpl never.
Arguments fileMarkedProcessed : simpl never.

Section Loop.

Variable w : World.
Variables A B : Dict.
Variable out : jsstring.

Abbreviation iteration := (iteration w A B out).
Abbreviation merge_loop := (merge_loop w A B out).

Definition done (st : State) : nat :=
  processed (summary st) + skipped (summary st).

Ltac iteration_cases :=
  unfold MergeIpc.iteration, report, with_summary, awaiting, cancel_merge;
  repeat match goal with
         | |- context [truthy_opt ?v] => destruct (truthy_opt v)
         | |- context [fileMarkedProcessed ?v] =>
           destruct (fileMarkedProcessed v)
         | |- context [merge_error ?x ?i] => destruct (merge_error x i)
         | |- context [cancel_during_merge ?x ?i] =>
           destruct (cancel_during_merge x i) eqn:?
         end;
  simpl.

Lemma iteration_done (i : nat) (code : jsstring) (st : State) :
  done (iteration i code st) = S (done st).
Proof. unfold done. iteration_cases; lia. Qed.

Lemma iteration_calls (i : nat) (code : jsstring) (st : State) :
  (length (mergeCalls (iteration i code st)) <= S (length (mergeCalls st)))%nat.
Proof. iteration_cases; rewrite ?length_app; simpl; lia. Qed.

Lemma iteration_total (i : nat) (code : jsstring) (st : State) :
  total (summary (iteration i code st)) = total (summary st).
Proof. iteration_cases; reflexivity. Qed.

Lemma iteration_quiet (i : nat) (code : jsstring) (st : State) :
  cancel_during_merge w i = false ->
  mergeCancelRequested (iteration i code st) = mergeCancelRequested st.
Proof. intros H. iteration_cases; congruence. Qed.

(** The branch of a code without a ZEPB file. *)
Lemma iteration_not_found (i : nat) (code : jsstring) (st : State) :
  truthy_opt (dict_get B code) = false ->
  let st' := iteration i code st in
  skipped (summary st') = S (skipped (summary st))
  /\ processed (summary st') = processed (summary st)
  /\ mergeCalls st' = mergeCalls st
  /\ mergeCancelRequested st' = mergeCancelRequested st
  /\ log (summary st')
     = log (summary st)
       ++ [js "Не найден ЗЭПБ для уведомления: "
           ++ basename (path_of (dict_get A code))
           ++ js " (" ++ code ++ js ")"].
Proof.
  intros H. unfold MergeIpc.iteration. rewrite H. simpl. auto.
Qed.

Lemma iteration_skipped_mono (i : nat) (code : jsstring) (st : State) :
  (skipped (summary st) <= skipped (summary (iteration i code st)))%nat.
Proof. iteration_cases; lia. Qed.

Lemma iteration_log_incl (i : nat) (code : jsstring) (st : State) :
  incl (log (summary st)) (log (summary (iteration i code st))).
Proof.
  iteration_cases; intros x Hx; apply in_or_app; now left.
Qed.

(** A call to the merge collaborator made for [code]. *)
Definition call_for (code : jsstring) (call : jsstring * jsstring * jsstring)
    : Prop :=
  fst (fst call) = path_of (dict_get A code)
  /\ snd (fst call) = path_of (dict_get B code).

Lemma iteration_calls_from (i : nat) (code : jsstring) (st : State) :
  forall call,
    In call (mergeCalls (iteration i code st)) ->
    In call (mergeCalls st) \/ call_for code call.
Proof.
  intros call. iteration_cases; auto;
    intros H; apply in_app_or in H; destruct H as [H | [<- | []]]; auto;
    right; split; reflexivity.
Qed.

Lemma cancel_exit_done (i : nat) (st : State) :
  done (cancel_exit i st) = done st.
Proof. reflexivity. Qed.

Lemma merge_loop_total (codes : list jsstring) :
  forall i st, total (summary (merge_loop codes i st)) = total (summary st).
Proof.
  induction codes as [|c rest IH]; intros i st; simpl; [reflexivity|].
  destruct (mergeCancelRequested st); [reflexivity|].
  now rewrite IH, iteration_total.
Qed.

Lemma merge_loop_done_le (codes : list jsstring) :
  forall i st, (done (merge_loop codes i st) <= done st + length codes)%nat.
Proof.
  induction codes as [|c rest IH]; intros i st; simpl; [lia|].
  destruct (mergeCancelRequested st).
  - rewrite cancel_exit_done. lia.
  - specialize (IH (S i) (iteration i c st)).
    rewrite iteration_done in IH. lia.
Qed.

Lemma merge_loop_calls_le (codes : list jsstring) :
  forall i st,
    (length (mergeCalls (merge_loop codes i st))
     <= length (mergeCalls st) + length codes)%nat.
Proof.
  induction codes as [|c rest IH]; intros i st; simpl; [lia|].
  destruct (mergeCancelRequested st).
  - simpl. lia.
  - specialize (IH (S i) (iteration i c st)).
    pose proof (iteration_calls i c st). lia.
Qed.

Lemma merge_loop_calls_from (codes : list jsstring) :
  forall i st call,
    In call (mergeCalls (merge_loop codes i st)) ->
    In call (mergeCalls st) \/ exists code, In code codes /\ call_for code call.
Proof.
  induction codes as [|c rest IH]; intros i st call; simpl; [auto|].
  destruct (mergeCancelRequested st); [simpl; auto|].
  intros H. destruct (IH _ _ _ H) as [H' | (code & Hc & Hf)].
  - destruct (iteration_calls_from i c st call H') as [H0 | H0]; [auto|].
    right. exists c. auto.
  - right. exists code. auto.
Qed.

(** Once the flag is up at the top of iteration [k], the run is the first
    [j] iterations, for some [j <= k], and the cancellation branch; its
    counters and calls are those of the run up to iteration [k]. *)
Lemma merge_loop_cancelled (codes : list jsstring) :
  forall k i st,
    (k < length codes)%nat ->
    mergeCancelRequested (merge_loop (firstn k codes) i st) = true ->
    let final := merge_loop codes i st in
    let upto := merge_loop (firstn k codes) i st in
    (exists j,
        (j <= k)%nat
        /\ final = cancel_exit (i + j) (merge_loop (firstn j codes) i st))
    /\ canceled (summary final) = true
    /\ processed (summary final) = processed (summary upto)
    /\ skipped (summary final) = skipped (summary upto)
    /\ mergeCalls final = mergeCalls upto.
Proof.
  induction codes as [|c rest IH]; intros k i st Hk Hf; simpl in Hk; [lia|].
  destruct (mergeCancelRequested st) eqn:E.
  - split; [exists 0%nat; simpl; rewrite E, Nat.add_0_r; split; [lia|auto]|].
    destruct k as [|k]; simpl; rewrite E; simpl; auto.
  - destruct k as [|k]; simpl in Hf; [congruence|].
    rewrite E in Hf.
    destruct (IH k (S i) (iteration i c st) ltac:(lia) Hf)
      as ((j & Hj & Hrun) & Hc & Hp & Hs & Hm).
    simpl. rewrite E.
    split; [|auto].
    exists (S j). simpl. rewrite E.
    replace (i + S j)%nat with (S i + j)%nat by lia.
    split; [lia|exact Hrun].
Qed.

(** A run no cancellation reaches goes through every code. *)
Lemma merge_loop_quiet (codes : list jsstring) :
  (forall i, cancel_during_merge w i = false) ->
  forall i st,
    mergeCancelRequested st = false ->
    let st' := merge_loop codes i st in
    mergeCancelRequested st' = false
    /\ done st' = (done st + length codes)%nat
    /\ (skipped (summary st)
        + length (filter (fun c => negb (truthy_opt (dict_get B c))) codes)
        <= skipped (summary st'))%nat
    /\ forall c,
        In c codes -> truthy_opt (dict_get B c) = false ->
        In (js "Не найден ЗЭПБ для уведомления: "
            ++ basename (path_of (dict_get A c))
            ++ js " (" ++ c ++ js ")") (log (summary st')).
Proof.
  intros Hq. induction codes as [|c rest IH]; intros i st Hf; simpl.
  - repeat split; auto; try lia; try (intros c []).
  - rewrite Hf.
    assert (Hf' : mergeCancelRequested (iteration i c st) = false)
      by now rewrite iteration_quiet.
    destruct (IH (S i) (iteration i c st) Hf') as (I1 & I2 & I3 & I4).
    rewrite iteration_done in I2.
    repeat split; auto; try lia.
    + destruct (truthy_opt (dict_get B c)) eqn:Et; simpl.
      * pose proof (iteration_skipped_mono i c st). lia.
      * destruct (iteration_not_found i c st Et) as (S1 & _). simpl in S1.
        simpl length. lia.
    + intros c' [<- | Hin] Hc'; [|now apply I4].
      destruct (iteration_not_found i c st Hc') as (_ & _ & _ & _ & L).
      simpl in L.
      assert (Hl : incl (log (summary (iteration i c st)))
                     (log (summary (merge_loop rest (S i) (iteration i c st))))).
      { generalize (S i) (iteration i c st). clear.
        induction rest as [|c0 rest IH]; intros j s0; simpl;
          [apply incl_refl|].
        destruct (mergeCancelRequested s0).
        - intros x Hx. simpl. apply in_or_app. now left.
        - eapply incl_tran; [apply iteration_log_incl | apply IH]. }
      apply Hl. rewrite L. apply in_or_app. right. now left.
Qed.

End Loop.

End LoopFacts.

(** The state in which the loop is entered: nothing counted, no call made,
    the flag up only if a request came in during the scan. *)
Lemma before_loop_fresh (w : MergeIpc.World) (A B : MergeService.Dict)
    (flag : bool) (store : list jsstring) :
  let entry := MergeIpc.before_loop w A B (MergeIpc.initial flag store) in
  MergeIpc.processed (MergeIpc.summary entry) = 0%nat
  /\ MergeIpc.skipped (MergeIpc.summary entry) = 0%nat
  /\ MergeIpc.mergeCalls entry = []
  /\ MergeIpc.mergeCancelRequested entry = MergeIpc.cancel_during_scan w
  /\ MergeIpc.total (MergeIpc.summary entry) = length (MergeService.keys A)
  /\ MergeIpc.errors (MergeIpc.summary entry) = []
  /\ MergeIpc.canceled (MergeIpc.summary entry) = false.
Proof.
  unfold MergeIpc.before_loop, MergeIpc.awaiting, MergeIpc.cancel_merge.
  destruct (MergeIpc.cancel_during_scan w); simpl; repeat split.
Qed.

(** C6.  The state at the top of iteration [k] is the state in which the
    loop leaves the codes of index below [k].  If the flag is up there, the
    run consists of the first [j] iterations, for some [j <= k], followed by
    the cancellation branch at the top of iteration [j]: the summary is
    marked canceled, [processed + skipped <= k], the counters and the calls
    to the merge collaborator are those of the iterations below [k], and
    every call was made for a code of index below [k] (nothing is done for a
    pair of index [k] or more). *)
Theorem merge_cancellation_bound :
  forall (w : MergeIpc.World) (insertDict zepbDict : MergeService.Dict)
         (outputFolder : jsstring) (flag : bool) (store : list jsstring)
         (k : nat),
    let codes := MergeService.keys insertDict in
    let entry :=
      MergeIpc.before_loop w insertDict zepbDict (MergeIpc.initial flag store) in
    let run_of l :=
      MergeIpc.merge_loop w insertDict zepbDict outputFolder l 0 entry in
    let final := run_of codes in
    let upto_k := run_of (firstn k codes) in
    (k < length codes)%nat ->
    MergeIpc.mergeCancelRequested upto_k = true ->
    (exists j, (j <= k)%nat
               /\ final = MergeIpc.cancel_exit j (run_of (firstn j codes)))
    /\ MergeIpc.canceled (MergeIpc.summary final) = true
    /\ (MergeIpc.processed (MergeIpc.summary final)
        + MergeIpc.skipped (MergeIpc.summary final) <= k)%nat
    /\ (length (MergeIpc.mergeCalls final) <= k)%nat
    /\ MergeIpc.processed (MergeIpc.summary final)
       = MergeIpc.processed (MergeIpc.summary upto_k)
    /\ MergeIpc.skipped (MergeIpc.summary final)
       = MergeIpc.skipped (MergeIpc.summary upto_k)
    /\ MergeIpc.mergeCalls final = MergeIpc.mergeCalls upto_k
    /\ (forall call,
          In call (MergeIpc.mergeCalls final) ->
          exists code,
            In code (firstn k codes)
            /\ LoopFacts.call_for insertDict zepbDict code call).
Proof.
  intros w A B out flag store k codes entry run_of final upto_k Hk Hf.
  subst final upto_k run_of. cbv beta in *.
  destruct (LoopFacts.merge_loop_cancelled w A B out codes k 0 entry Hk Hf)
    as (Hj & Hc & Hp & Hs & Hm).
  pose proof (LoopFacts.merge_loop_done_le w A B out (firstn k codes) 0 entry)
    as Hd.
  pose proof (LoopFacts.merge_loop_calls_le w A B out (firstn k codes) 0 entry)
    as Hl.
  rewrite length_firstn in Hd, Hl. unfold LoopFacts.done in Hd.
  destruct (before_loop_fresh w A B flag store) as (E1 & E2 & E3 & _).
  fold entry in E1, E2, E3. rewrite E1, E2 in Hd. rewrite E3 in Hl.
  simpl in Hd, Hl.
  repeat split; auto.
  - rewrite Hp, Hs. lia.
  - rewrite Hm. lia.
  - intros call Hin. rewrite Hm in Hin.
    destruct (LoopFacts.merge_loop_calls_from w A B out (firstn k codes) 0
                entry call Hin) as [H0 | H0]; [|exact H0].
    rewrite E3 in H0. destruct H0.
Qed.

(** A run of three pairs in which the request to cancel arrives while the
    first pair is being merged. *)
Module CancelExample.

Import MergeService MergeIpc.

Definition notifications : Dict :=
  [ (js "СПД-1", js "ins/Увед СПД-1.pdf");
    (js "СПД-2", js "ins/Увед СПД-2.pdf");
    (js "СПД-3", js "ins/Увед СПД-3.pdf") ].

Definition zepb : Dict :=
  [ (js "СПД-1", js "main/ЗЭПБ СПД-1.pdf");
    (js "СПД-2", js "main/ЗЭПБ СПД-2.pdf");
    (js "СПД-3", js "main/ЗЭПБ СПД-3.pdf") ].

Definition world : World :=
  mkWorld None (fun _ => None) None None false (fun _ => None)
    (fun i => Nat.eqb i 0) (fun _ _ => inl (js "out/Реестр.docx")).

End CancelExample.

Lemma merge_cancellation_bound_witness :
  let final :=
    MergeIpc.merge_loop CancelExample.world CancelExample.notifications
      CancelExample.zepb (js "out")
      (MergeService.keys CancelExample.notifications) 0
      (MergeIpc.before_loop CancelExample.world CancelExample.notifications
         CancelExample.zepb (MergeIpc.initial false [])) in
  MergeIpc.canceled (MergeIpc.summary final) = true
  /\ (MergeIpc.processed (MergeIpc.summary final)
      + MergeIpc.skipped (MergeIpc.summary final) <= 1)%nat
  /\ (length (MergeIpc.mergeCalls final) <= 1)%nat.
Proof.
  pose proof (merge_cancellation_bound CancelExample.world
                CancelExample.notifications CancelExample.zepb (js "out")
                false [] 1 (le_S 2 2 (le_n 2)) eq_refl) as H.
  cbv zeta in H. destruct H as (_ & Hc & Hd & Hl & _).
  repeat split; assumption.
Defined.

(** ** Pairing *)

Module PairingFacts.

Import MergeService MergeIpc.

Lemma set_has_In (codes : list jsstring) (c : jsstring) :
  set_has codes c = true <-> In c codes.
Proof.
  unfold set_has. rewrite existsb_exists. split.
  - intros (x & Hx & E). apply str_eqb_eq in E. now subst.
  - intros H. exists c. split; [exact H | apply str_eqb_refl].
Qed.

Lemma filter_split {X : Type} (f : X -> bool) (l : list X) :
  (length (filter f l) + length (filter (fun x => negb (f x)) l)
   = length l)%nat.
Proof.
  induction l as [|x l IH]; simpl; [reflexivity|].
  destruct (f x); simpl; lia.
Qed.

Lemma filter_length_le {X : Type} (f g : X -> bool) (l : list X) :
  (forall x, f x = true -> g x = true) ->
  (length (filter f l) <= length (filter g l))%nat.
Proof.
  intros H. induction l as [|x l IH]; simpl; [lia|].
  destruct (f x) eqn:E.
  - rewrite (H x E). simpl. lia.
  - destruct (g x); simpl; lia.
Qed.

(** Two lists without repetition share as many elements one way as the
    other. *)
Lemma common_length (a b : list jsstring) :
  NoDup a -> NoDup b ->
  length (filter (set_has b) a) = length (filter (set_has a) b).
Proof.
  intros Ha Hb. apply Nat.le_antisymm.
  - apply NoDup_incl_length; [now apply NoDup_filter|].
    intros x Hx. apply filter_In in Hx. destruct Hx as [Hxa Hxb].
    apply filter_In. split; [now apply set_has_In | now apply set_has_In].
  - apply NoDup_incl_length; [now apply NoDup_filter|].
    intros x Hx. apply filter_In in Hx. destruct Hx as [Hxb Hxa].
    apply filter_In. split; [now apply set_has_In | now apply set_has_In].
Qed.

Lemma unmatched_codes (d : Dict) (others : list jsstring) :
  map fst (unmatched_of d others)
  = filter (fun code => negb (set_has others code)) (keys d).
Proof.
  unfold unmatched_of. rewrite map_map. simpl. apply map_id.
Qed.

Lemma unmatched_length (d : Dict) (others : list jsstring) :
  length (unmatched_of d others)
  = length (filter (fun code => negb (set_has others code)) (keys d)).
Proof. unfold unmatched_of. apply length_map. Qed.

Lemma dict_get_keys (d : Dict) (c v : jsstring) :
  dict_get d c = Some v -> In c (keys d).
Proof.
  intros H. apply DictFacts.dict_get_In in H.
  unfold keys. change c with (fst (c, v)). now apply in_map.
Qed.

(** A code the set of ZEPB codes does not hold has no ZEPB path. *)
Lemma absent_has_no_path (d : Dict) (c : jsstring) :
  set_has (keys d) c = false -> truthy_opt (dict_get d c) = false.
Proof.
  intros H. destruct (dict_get d c) as [v|] eqn:E; [|reflexivity].
  apply dict_get_keys in E. apply set_has_In in E. congruence.
Qed.

Lemma catch_block_total (message : jsstring) (st : State) :
  total (r_summary (catch_block message st)) = total (summary st).
Proof. reflexivity. Qed.

Lemma after_loop_total (w : World) (A B : Dict) (out : jsstring) (st : State) :
  total (r_summary (after_loop w A B out st)) = total (summary st).
Proof.
  unfold after_loop. destruct (processedNames st); [reflexivity|].
  destruct (createRegisterDocx w out _); reflexivity.
Qed.

Lemma enters_true (w : World) (mainFolder insertFolder outputFolder : jsstring) :
  enters w mainFolder insertFolder outputFolder = true ->
  truthy mainFolder = true /\ truthy insertFolder = true
  /\ truthy outputFolder = true /\ ensureDir_error w = None.
Proof.
  unfold enters. rewrite !andb_true_iff.
  intros [[[H1 H2] H3] H4]. repeat split; auto.
  now destruct (ensureDir_error w).
Qed.

(** A run that passes the entry guard is the scan, the loop and the
    registry step. *)
Lemma merge_pdfs_enters (w : World) (flag : bool) (store : list jsstring)
    (mainFolder insertFolder outputFolder : jsstring)
    (recursiveMain recursiveInsert : bool) :
  enters w mainFolder insertFolder outputFolder = true ->
  merge_pdfs w flag store mainFolder insertFolder outputFolder
    recursiveMain recursiveInsert
  = after_loop w (insertDict_of w insertFolder recursiveInsert)
      (zepbDict_of w mainFolder recursiveMain) outputFolder
      (loop_exit w flag store mainFolder insertFolder outputFolder
         recursiveMain recursiveInsert).
Proof.
  intros H. destruct (enters_true _ _ _ _ H) as (H1 & H2 & H3 & H4).
  unfold merge_pdfs, loop_exit. now rewrite H1, H2, H3, H4.
Qed.

End PairingFacts.

(** C7.  For two dictionaries (objects: their keys are distinct), the codes
    of the notification dictionary that the ZEPB dictionary holds too and
    the unmatched notifications add up to the notification dictionary, the
    same codes and the unmatched ZEPB entries add up to the ZEPB dictionary,
    no matched code is in either unmatched list, and in a run that passes
    the entry guard [summary.total] is the number of keys of the
    notification dictionary. *)
Theorem pairing_complete :
  forall A B : MergeService.Dict,
    NoDup (MergeService.keys A) -> NoDup (MergeService.keys B) ->
    let matched :=
      filter (MergeIpc.set_has (MergeService.keys B)) (MergeService.keys A) in
    let unmatchedNotifications :=
      MergeIpc.unmatched_of A (MergeService.keys B) in
    let unmatchedZepb := MergeIpc.unmatched_of B (MergeService.keys A) in
    (length matched + length unmatchedNotifications
     = length (MergeService.keys A))%nat
    /\ (length matched + length unmatchedZepb
        = length (MergeService.keys B))%nat
    /\ (forall code, In code matched ->
          ~ In code (map fst unmatchedNotifications)
          /\ ~ In code (map fst unmatchedZepb))
    /\ (forall (w : MergeIpc.World) (flag : bool) (store : list jsstring)
               (mainFolder insertFolder outputFolder : jsstring)
               (recursiveMain recursiveInsert : bool),
          MergeIpc.enters w mainFolder insertFolder outputFolder = true ->
          MergeIpc.total
            (MergeIpc.r_summary
               (MergeIpc.merge_pdfs w flag store mainFolder insertFolder
                  outputFolder recursiveMain recursiveInsert))
          = length (MergeService.keys
                      (MergeIpc.insertDict_of w insertFolder recursiveInsert))).
Proof.
  intros A B HA HB matched uN uZ. subst matched uN uZ.
  rewrite !PairingFacts.unmatched_length, !PairingFacts.unmatched_codes.
  split; [apply PairingFacts.filter_split|].
  split.
  - rewrite (PairingFacts.common_length _ _ HA HB).
    apply PairingFacts.filter_split.
  - split.
    + intros code Hin. apply filter_In in Hin. destruct Hin as [Ha Hb].
      split; intros H; apply filter_In in H; destruct H as [_ H].
      * now rewrite Hb in H.
      * apply PairingFacts.set_has_In in Ha. rewrite Ha in H. discriminate.
    + intros w flag store mf inf outf rM rI He.
      rewrite (PairingFacts.merge_pdfs_enters _ _ _ _ _ _ _ _ He).
      rewrite PairingFacts.after_loop_total.
      unfold MergeIpc.loop_exit. rewrite LoopFacts.merge_loop_total.
      now destruct (before_loop_fresh w
                      (MergeIpc.insertDict_of w inf rI)
                      (MergeIpc.zepbDict_of w mf rM) flag store)
        as (_ & _ & _ & _ & Ht & _).
Qed.

(** The scenario of two dictionaries with one code in common. *)
Module PairingExample.

Definition notifications : MergeService.Dict :=
  [ (js "СПД-100", js "a.pdf") ].

Definition zepb : MergeService.Dict :=
  [ (js "СПД-100", js "zepb_b.pdf"); (js "СПД-200", js "zepb_c.pdf") ].

Lemma notifications_NoDup : NoDup (MergeService.keys notifications).
Proof. repeat constructor. intros []. Defined.

Lemma zepb_NoDup : NoDup (MergeService.keys zepb).
Proof.
  repeat constructor; simpl; [|intros []].
  intros [H | []]. discriminate H.
Defined.

End PairingExample.

Lemma pairing_complete_witness :
  MergeIpc.unmatched_of PairingExample.notifications
    (MergeService.keys PairingExample.zepb) = []
  /\ MergeIpc.unmatched_of PairingExample.zepb
       (MergeService.keys PairingExample.notifications)
     = [(js "СПД-200", js "zepb_c.pdf")]
  /\ (length (filter (MergeIpc.set_has (MergeService.keys PairingExample.zepb))
                (MergeService.keys PairingExample.notifications))
      + length (MergeIpc.unmatched_of PairingExample.zepb
                  (MergeService.keys PairingExample.notifications))
      = length (MergeService.keys PairingExample.zepb))%nat.
Proof.
  split; [reflexivity|]. split; [reflexivity|].
  exact (proj1 (proj2 (pairing_complete PairingExample.notifications
                         PairingExample.zepb PairingExample.notifications_NoDup
                         PairingExample.zepb_NoDup))).
Defined.

(** A run with a notification that has no ZEPB file. *)
Module UnmatchedExample.

Import MergeService MergeIpc.

Definition world : World :=
  mkWorld None (fun _ => None)
    (Some [FileEnt (js "Увед СПД-1.pdf")])
    (Some [FileEnt (js "ЗЭПБ СПД-2.pdf")])
    false (fun _ => None) (fun _ => false)
    (fun _ _ => inl (js "out/Реестр.docx")).

Definition result : Result :=
  merge_pdfs world false [] (js "main") (js "ins") (js "out") false false.

End UnmatchedExample.

(** C2, as stated, fails: the notification code [СПД-1] has no ZEPB file, it
    is reported in [unmatchedNotifications], and still it drives the one
    iteration of the loop, which takes the "ZEPB not found" branch and counts
    it in [summary.skipped]. *)
Lemma loop_iterates_matched_pairs_only_counterexample :
  MergeIpc.r_unmatchedNotifications UnmatchedExample.result
  = [(js "СПД-1", js "Увед СПД-1.pdf")]
  /\ MergeIpc.total (MergeIpc.r_summary UnmatchedExample.result) = 1%nat
  /\ MergeIpc.log (MergeIpc.r_summary UnmatchedExample.result)
     = [js "Не найден ЗЭПБ для уведомления: Увед СПД-1.pdf (СПД-1)"]
  /\ MergeIpc.skipped (MergeIpc.r_summary UnmatchedExample.result) <> 0%nat.
Proof.
  vm_compute. repeat split. intros H. discriminate H.
Qed.

(** C2, amended.  The loop runs over every key of the notification
    dictionary.  The iteration of a code the ZEPB dictionary lacks takes the
    "ZEPB not found" branch: one more in [summary.skipped], the message in
    the log, no call to the merge collaborator.  So in a run that no
    cancellation reaches every key drives one iteration
    ([processed + skipped] grows by the number of keys), [skipped] grows by
    at least the number of unmatched notifications, and the message of each
    of them is in the log. *)
Theorem merge_loop_visits_every_notification :
  forall (w : MergeIpc.World) (insertDict zepbDict : MergeService.Dict)
         (outputFolder : jsstring),
    (forall i code st,
        MergeService.dict_get zepbDict code = None ->
        let st' := MergeIpc.iteration w insertDict zepbDict outputFolder
                     i code st in
        MergeIpc.skipped (MergeIpc.summary st')
        = S (MergeIpc.skipped (MergeIpc.summary st))
        /\ MergeIpc.processed (MergeIpc.summary st')
           = MergeIpc.processed (MergeIpc.summary st)
        /\ MergeIpc.mergeCalls st' = MergeIpc.mergeCalls st)
    /\ (forall st,
          MergeIpc.mergeCancelRequested st = false ->
          (forall i, MergeIpc.cancel_during_merge w i = false) ->
          let final :=
            MergeIpc.merge_loop w insertDict zepbDict outputFolder
              (MergeService.keys insertDict) 0 st in
          let unmatchedNotifications :=
            MergeIpc.unmatched_of insertDict (MergeService.keys zepbDict) in
          (MergeIpc.processed (MergeIpc.summary final)
           + MergeIpc.skipped (MergeIpc.summary final)
           = MergeIpc.processed (MergeIpc.summary st)
             + MergeIpc.skipped (MergeIpc.summary st)
             + length (MergeService.keys insertDict))%nat
          /\ (MergeIpc.skipped (MergeIpc.summary st)
              + length unmatchedNotifications
              <= MergeIpc.skipped (MergeIpc.summary final))%nat
          /\ forall code file,
              In (code, file) unmatchedNotifications ->
              In (js "Не найден ЗЭПБ для уведомления: " ++ file
                  ++ js " (" ++ code ++ js ")")
                 (MergeIpc.log (MergeIpc.summary final))).
Proof.
  intros w A B out. split.
  - intros i code st Hnone.
    destruct (LoopFacts.iteration_not_found w A B out i code st)
      as (H1 & H2 & H3 & _); [now rewrite Hnone|].
    auto.
  - intros st Hf Hq final uN.
    destruct (LoopFacts.merge_loop_quiet w A B out (MergeService.keys A) Hq 0
                st Hf) as (_ & Hd & Hs & Hl).
    fold final in Hd, Hs, Hl. unfold LoopFacts.done in Hd.
    split; [exact Hd|]. split.
    + subst uN. rewrite PairingFacts.unmatched_length.
      pose proof (PairingFacts.filter_length_le
                    (fun code => negb (MergeIpc.set_has (MergeService.keys B) code))
                    (fun c => negb (MergeService.truthy_opt (MergeService.dict_get B c)))
                    (MergeService.keys A)) as Hle.
      assert (Hx : forall x,
                 negb (MergeIpc.set_has (MergeService.keys B) x) = true ->
                 negb (MergeService.truthy_opt (MergeService.dict_get B x)) = true).
      { intros x Hx. apply negb_true_iff in Hx. apply negb_true_iff.
        now apply PairingFacts.absent_has_no_path. }
      specialize (Hle Hx). lia.
    + intros code file Hin. subst uN. unfold MergeIpc.unmatched_of in Hin.
      apply in_map_iff in Hin. destruct Hin as (c & [= <- <-] & Hc).
      apply filter_In in Hc. destruct Hc as [Hk Hn].
      apply negb_true_iff in Hn.
      apply Hl; [exact Hk | now apply PairingFacts.absent_has_no_path].
Qed.

Lemma merge_loop_visits_every_notification_witness :
  let A := [(js "СПД-1", js "ins/Увед СПД-1.pdf")] in
  let B := [(js "СПД-2", js "main/ЗЭПБ СПД-2.pdf")] in
  let entry := MergeIpc.before_loop UnmatchedExample.world A B
                 (MergeIpc.initial false []) in
  let final := MergeIpc.merge_loop UnmatchedExample.world A B (js "out")
                 (MergeService.keys A) 0 entry in
  (MergeIpc.processed (MergeIpc.summary final)
   + MergeIpc.skipped (MergeIpc.summary final) = 1)%nat
  /\ (1 <= MergeIpc.skipped (MergeIpc.summary final))%nat.
Proof.
  intros A B entry final.
  destruct (proj2 (merge_loop_visits_every_notification UnmatchedExample.world
                     A B (js "out")) entry eq_refl (fun _ => eq_refl))
    as (H1 & H2 & _).
  split; [exact H1 | exact H2].
Defined.

(** A run of one pair, merged, after which the registry cannot be written. *)
Module RegistryExample.

Import MergeService MergeIpc.

Definition world : World :=
  mkWorld None (fun _ => None)
    (Some [FileEnt (js "Увед СПД-100.pdf")])
    (Some [FileEnt (js "ЗЭПБ СПД-100.pdf"); FileEnt (js "ЗЭПБ СПД-200.pdf")])
    false (fun _ => None) (fun _ => false)
    (fun _ _ => inr (js "EACCES: permission denied")).

Definition at_loop_exit : State :=
  loop_exit world false [] (js "main") (js "ins") (js "out") false false.

Definition result : Result :=
  merge_pdfs world false [] (js "main") (js "ins") (js "out") false false.

End RegistryExample.

(** C3, as stated, fails: the loop ends with one file merged and no error,
    the registry generator throws, and the summary returned carries an error
    entry for it. *)
Lemma registry_failure_adds_no_error_counterexample :
  MergeIpc.processedNames RegistryExample.at_loop_exit
  = [js "ЗЭПБ СПД-100 (с увед).pdf"]
  /\ MergeIpc.errors (MergeIpc.summary RegistryExample.at_loop_exit) = []
  /\ MergeIpc.errors (MergeIpc.r_summary RegistryExample.result)
     = [js "Ошибка объединения: EACCES: permission denied"]
  /\ MergeIpc.errors (MergeIpc.r_summary RegistryExample.result)
     <> MergeIpc.errors (MergeIpc.summary RegistryExample.at_loop_exit).
Proof.
  vm_compute. repeat split. intros H. discriminate H.
Qed.

(** C3, amended.  When the loop has ended with at least one merged file and
    the registry generator throws, the handler's [catch] block takes over:
    [processed], [skipped], [total] and [canceled] are what they were at the
    end of the loop, the registry returned is [null], and [errors] and [log]
    each gain one entry, the message of the failure behind the text of the
    [catch] block; the two unmatched lists are returned empty. *)
Theorem registry_failure_is_caught :
  forall (w : MergeIpc.World) (flag : bool) (store : list jsstring)
         (mainFolder insertFolder outputFolder : jsstring)
         (recursiveMain recursiveInsert : bool) (message : jsstring),
    let st := MergeIpc.loop_exit w flag store mainFolder insertFolder
                outputFolder recursiveMain recursiveInsert in
    let r := MergeIpc.merge_pdfs w flag store mainFolder insertFolder
               outputFolder recursiveMain recursiveInsert in
    let msg := js "Ошибка объединения: " ++ MergeIpc.error_text message in
    MergeIpc.enters w mainFolder insertFolder outputFolder = true ->
    MergeIpc.processedNames st <> [] ->
    MergeIpc.createRegisterDocx w outputFolder (MergeIpc.processedNames st)
    = inr message ->
    MergeIpc.processed (MergeIpc.r_summary r)
    = MergeIpc.processed (MergeIpc.summary st)
    /\ MergeIpc.skipped (MergeIpc.r_summary r)
       = MergeIpc.skipped (MergeIpc.summary st)
    /\ MergeIpc.total (MergeIpc.r_summary r)
       = MergeIpc.total (MergeIpc.summary st)
    /\ MergeIpc.canceled (MergeIpc.r_summary r)
       = MergeIpc.canceled (MergeIpc.summary st)
    /\ MergeIpc.r_registry r = None
    /\ MergeIpc.errors (MergeIpc.r_summary r)
       = MergeIpc.errors (MergeIpc.summary st) ++ [msg]
    /\ MergeIpc.log (MergeIpc.r_summary r)
       = MergeIpc.log (MergeIpc.summary st) ++ [msg]
    /\ MergeIpc.r_unmatchedNotifications r = []
    /\ MergeIpc.r_unmatchedZepb r = [].
Proof.
  intros w flag store mf inf outf rM rI message st r msg He Hn Hr.
  subst r. rewrite (PairingFacts.merge_pdfs_enters _ _ _ _ _ _ _ _ He).
  fold st. unfold MergeIpc.after_loop.
  destruct (MergeIpc.processedNames st) as [|n ns] eqn:En; [congruence|].
  rewrite Hr. repeat split.
Qed.

Lemma registry_failure_is_caught_witness :
  MergeIpc.processed (MergeIpc.r_summary RegistryExample.result) = 1%nat
  /\ MergeIpc.skipped (MergeIpc.r_summary RegistryExample.result) = 0%nat
  /\ MergeIpc.r_registry RegistryExample.result = None
  /\ MergeIpc.errors (MergeIpc.r_summary RegistryExample.result)
     = [js "Ошибка объединения: EACCES: permission denied"].
Proof.
  assert (Hn : MergeIpc.processedNames RegistryExample.at_loop_exit <> [])
    by (vm_compute; intros H; discriminate H).
  assert (He0 : MergeIpc.enters RegistryExample.world (js "main") (js "ins")
                  (js "out") = true) by (vm_compute; reflexivity).
  assert (Hr0 : MergeIpc.createRegisterDocx RegistryExample.world (js "out")
                  (MergeIpc.processedNames RegistryExample.at_loop_exit)
                = inr (js "EACCES: permission denied"))
    by (vm_compute; reflexivity).
  destruct (registry_failure_is_caught RegistryExample.world false []
              (js "main") (js "ins") (js "out") false false
              (js "EACCES: permission denied") He0 Hn Hr0)
    as (Hp & Hs & _ & _ & Hreg & He & _).
  vm_compute in Hp, Hs, Hreg, He |- *.
  split; [exact Hp | split; [exact Hs | split; [exact Hreg | exact He]]].
Defined.

(** ** The compress loops *)

Module CompressFacts.

Import PdfService.

Section Loops.

Variable w : World.
Variable Caller : Type.
Variable progressCallback : nat -> nat -> FileProcessResult -> Caller -> Caller.
Variable during : nat -> Caller -> Caller.

Definition attempted_of (st : LoopState Caller) : list jsstring := snd st.

Lemma loop_body_attempted (outputFolder : jsstring) (quality : Z)
    (gsCmd : option jsstring) (index : nat) (fname inPath : jsstring)
    (st : LoopState Caller) :
  attempted_of (loop_body w progressCallback during outputFolder quality gsCmd
                  index fname inPath st)
  = attempted_of st ++ [inPath].
Proof. destruct st as [[r c] a]. reflexivity. Qed.

(** The loop of [compressFiles] hands every file of the list to
    [compressSinglePdf], whatever happens to the caller's state. *)
Lemma files_loop_attempted (outputFolder : jsstring) (quality : Z)
    (gsCmd : option jsstring) (pdfs : list jsstring) :
  forall index st,
    attempted_of (files_loop w progressCallback during outputFolder quality
                    gsCmd pdfs index st)
    = attempted_of st ++ pdfs.
Proof.
  induction pdfs as [|f rest IH]; intros index st; simpl.
  - now rewrite app_nil_r.
  - rewrite IH, loop_body_attempted, <- app_assoc. reflexivity.
Qed.

Lemma folder_loop_attempted (inputFolder outputFolder : jsstring)
    (quality : Z) (gsCmd : option jsstring) (pdfs : list jsstring) :
  forall index st,
    attempted_of (folder_loop w progressCallback during inputFolder
                    outputFolder quality gsCmd pdfs index st)
    = attempted_of st ++ map (Path.join inputFolder) pdfs.
Proof.
  induction pdfs as [|f rest IH]; intros index st; simpl.
  - now rewrite app_nil_r.
  - rewrite IH, loop_body_attempted, <- app_assoc. reflexivity.
Qed.

End Loops.

Arguments attempted_of {Caller} st.

End CompressFacts.

(** Three files dropped on the window; the request to cancel arrives while
    the first one is being compressed. *)
Module CompressExample.

Import PdfService CompressIpc.

Definition world : World :=
  mkWorld None (fun _ => Some true) (fun _ => Some 1000%N)
    (fun _ => Some 400%N) (fun _ => true)
    (fun _ => inl [js "a.pdf"; js "b.pdf"; js "c.pdf"])
    None (fun _ => None) (fun _ _ => None) (fun _ => None) (fun _ => None).

Definition cancel_at (index : nat) : bool := Nat.eqb index 0.

Definition dropped : list jsstring :=
  [js "in/a.pdf"; js "in/b.pdf"; js "in/c.pdf"].

Definition after_files : LoopState State :=
  compress_files world cancel_at dropped (js "out") 30 (mkState false []).

Definition after_folder : LoopState State :=
  compress_pdfs world cancel_at (js "in") (js "out") 30 (mkState false []).

End CompressExample.

(** C4 does not hold of the code: with the request to cancel arriving while
    the first of three files is being compressed, both [compress-files] and
    [compress-pdfs] go on to compress the second and the third file.  The
    flag is read in the progress callback only, where it silences the
    progress events: none is sent, and all three files are counted. *)
Theorem compress_loop_ignores_cancel :
  CompressFacts.attempted_of CompressExample.after_files
  = [js "in/a.pdf"; js "in/b.pdf"; js "in/c.pdf"]
  /\ CompressFacts.attempted_of CompressExample.after_folder
     = [js "in/a.pdf"; js "in/b.pdf"; js "in/c.pdf"]
  /\ PdfService.processed (fst (fst CompressExample.after_files)) = 3%nat
  /\ PdfService.processed (fst (fst CompressExample.after_folder)) = 3%nat
  /\ CompressIpc.compressCancelRequested
       (snd (fst CompressExample.after_files)) = true
  /\ CompressIpc.sent (snd (fst CompressExample.after_files))
     = [ CompressIpc.CompressComplete 3 3
           (PdfService.log (fst (fst CompressExample.after_files))) ].
Proof. vm_compute. repeat split. Qed.

(** ** The code extractor *)

Definition same_code (a b : option jsstring) : bool :=
  match a, b with
  | Some x, Some y => str_eqb x y
  | None, None => true
  | _, _ => false
  end.

(** C1 does not hold of the code.  The pattern does give the longer prefix
    for a name with the code in it, for each prefix of the vocabulary.  The
    folder fallback takes the first prefix of [PREFIXES] that the folder
    name holds, and [П] stands before [ПТП] and [ТТП] in the list: a file
    [12.pdf] in a folder [ПТП] or [ТТП] gets the code [П-12]. *)
Theorem folder_fallback_takes_first_listed_prefix :
  MergeService.extractNotificationCode (js "ПТП/12.pdf") = Some (js "П-12")
  /\ MergeService.extractNotificationCode (js "ТТП/12.pdf") = Some (js "П-12")
  /\ MergeService.extractNotificationCode (js "СППК/12.pdf")
     = Some (js "СППК-12")
  /\ filter
       (fun p =>
          negb (same_code
                  (MergeService.extractNotificationCode (p ++ js "/12.pdf"))
                  (Some (p ++ js "-12"))))
       MergeService.PREFIXES
     = [js "ПТП"; js "ТТП"]
  /\ forallb
       (fun p =>
          same_code
            (MergeService.extractNotificationCode
               (js "вх/увед " ++ toLowerCase p ++ js "-12.pdf"))
            (Some (p ++ js "-12"))
          && same_code
               (MergeService.extractZepbCode
                  (js "ЗЭПБ " ++ p ++ js "-12.5.pdf"))
               (Some (p ++ js "-12.5")))
       MergeService.PREFIXES
     = true.
Proof. vm_compute. repeat split. Qed.
